(** * area_division: the node that assigns map regions to swarm members

    A shallow embedding of [area_division/src/area_division.cpp]: the
    global variables of the node become one [State] record, every callback
    becomes a function on it, and [main] becomes a small machine over the
    phases of its three waiting loops.  The optimiser behind the global
    [division] object and the ROS time types are interfaces here, since
    the node only calls them. *)

From Stdlib Require Import ZArith List Bool String Ascii Lia Permutation Sorted.
From Stdlib Require Import PrimFloat FloatOps SpecFloat Uint63.
Import ListNotations.

Local Open Scope Z_scope.

(* The decimal constants of the source (0.01, 1e-4) denote the nearest
   binary64 number, in C++ as here. *)
Set Warnings "-inexact-float".

(* ------------------------------------------------------------------ *)
(** * Numbers *)

(** A C++ [double] is a binary64 number; [float] is the kernel's. *)
Definition double := float.

Definition INT_MIN : Z := - 2 ^ 31.
Definition INT_MAX : Z := 2 ^ 31 - 1.

(** [(int) w] for an unsigned 32 bit [w]: the value modulo 2^32, read as
    a signed 32 bit integer. *)
Definition int_of_uint32 (w : Z) : Z :=
  let r := w mod 2 ^ 32 in
  if r <=? INT_MAX then r else r - 2 ^ 32.

(** [round(x)] of <cmath>: the nearest integral value, halfway cases away
    from zero; zeros, infinities and NaN are returned as they are.  A
    finite binary64 number is [m * 2^e] with [m < 2^53], so it is already
    integral when [0 <= e], and otherwise the rounded magnitude is at
    most [2^52] and converts back exactly. *)
Definition round (x : double) : double :=
  match Prim2SF x with
  | S754_finite s m e =>
      if 0 <=? e then x
      else
        let d := 2 ^ (- e) in
        let q := Z.pos m / d in
        let n := if d <=? 2 * (Z.pos m mod d) then q + 1 else q in
        let r := PrimFloat.of_uint63 (Uint63.of_Z n) in
        if s then PrimFloat.opp r else r
  | _ => x
  end.

(** [int(x)] for a double [x]: truncation towards zero.  C++ leaves the
    conversion undefined when the truncated value does not fit an [int]
    (and for infinities and NaN); x86-64 yields [INT_MIN] there, and so
    does this function. *)
Definition int_of_double (x : double) : Z :=
  match Prim2SF x with
  | S754_zero _ => 0
  | S754_finite s m e =>
      let a := if 0 <=? e then Z.pos m * 2 ^ e else Z.pos m / 2 ^ (- e) in
      let z := if s then - a else a in
      if (INT_MIN <=? z) && (z <=? INT_MAX) then z else INT_MIN
  | _ => INT_MIN
  end.

(** [var] after [nh.param(name, var, default)]: the value on the parameter
    server when there is one, the default otherwise. *)
Definition param {A : Type} (server : option A) (default : A) : A :=
  match server with
  | Some v => v
  | None => default
  end.

(* ------------------------------------------------------------------ *)
(** * std::string order

    [std::less<std::string>] compares byte by byte, a proper prefix being
    smaller: this is [String.compare]. *)

Definition string_lt (a b : string) : Prop := String.compare a b = Lt.

Lemma ascii_compare_refl (c : ascii) : Ascii.compare c c = Eq.
Proof. unfold Ascii.compare. apply N.compare_refl. Qed.

Lemma ascii_compare_lt_trans (a b c : ascii) :
  Ascii.compare a b = Lt -> Ascii.compare b c = Lt -> Ascii.compare a c = Lt.
Proof.
  unfold Ascii.compare. rewrite !N.compare_lt_iff. apply N.lt_trans.
Qed.

Lemma string_compare_refl (s : string) : String.compare s s = Eq.
Proof.
  induction s as [|c s IH]; simpl; [reflexivity|].
  now rewrite ascii_compare_refl.
Qed.

Lemma string_compare_eq (a b : string) : String.compare a b = Eq <-> a = b.
Proof.
  split; [apply String.compare_eq_iff|].
  intros ->. apply string_compare_refl.
Qed.

Lemma string_compare_gt (a b : string) :
  String.compare a b = Gt <-> String.compare b a = Lt.
Proof.
  rewrite (String.compare_antisym b a).
  destruct (String.compare a b); simpl; split; congruence.
Qed.

Lemma string_lt_irrefl (a : string) : ~ string_lt a a.
Proof. unfold string_lt. rewrite string_compare_refl. discriminate. Qed.

Lemma string_lt_trans (a b c : string) :
  string_lt a b -> string_lt b c -> string_lt a c.
Proof.
  unfold string_lt. revert b c.
  induction a as [|x a IH]; intros [|y b] [|z c]; simpl; try congruence.
  destruct (Ascii.compare x y) eqn:Hxy; try discriminate.
  - apply Ascii.compare_eq_iff in Hxy. subst y.
    destruct (Ascii.compare x z); try congruence. apply IH.
  - intros _. destruct (Ascii.compare y z) eqn:Hyz; try discriminate.
    + apply Ascii.compare_eq_iff in Hyz. subst z. now rewrite Hxy.
    + intros _. now rewrite (ascii_compare_lt_trans x y z).
Qed.

Lemma string_lt_neq (a b : string) : string_lt a b -> a <> b.
Proof. intros H ->. exact (string_lt_irrefl b H). Qed.

(* ------------------------------------------------------------------ *)
(** * std::map<std::string, V>

    The entries of a [std::map] in iteration order: a list of pairs whose
    keys increase strictly.  Every operation below walks the list the way
    the tree is searched, by comparing keys. *)

Section StdMap.
Context {V : Type}.

Definition smap := list (string * V).

Definition keys (m : smap) : list string := map fst m.

(** The class invariant: keys in strictly increasing order. *)
Definition wf (m : smap) : Prop := StronglySorted string_lt (keys m).

(** [m.find(k)]: the mapped value, [None] standing for [m.end()]. *)
Fixpoint find (k : string) (m : smap) : option V :=
  match m with
  | [] => None
  | (k', v) :: m' => if String.eqb k k' then Some v else find k m'
  end.

(** [m.emplace(k, v)]: inserts at the key's place, and leaves the map as
    it is when the key is present. *)
Fixpoint emplace (k : string) (v : V) (m : smap) : smap :=
  match m with
  | [] => [(k, v)]
  | (k', v') :: m' =>
      match String.compare k k' with
      | Lt => (k, v) :: m
      | Eq => m
      | Gt => (k', v') :: emplace k v m'
      end
  end.

(** [m.erase(it)] for the iterator at key [k]. *)
Fixpoint erase (k : string) (m : smap) : smap :=
  match m with
  | [] => []
  | (k', v) :: m' =>
      if String.eqb k k' then erase k m' else (k', v) :: erase k m'
  end.

(** Assignment through the iterator at key [k]: [it->second = f(it->second)]. *)
Fixpoint assign (k : string) (f : V -> V) (m : smap) : smap :=
  match m with
  | [] => []
  | (k', v) :: m' =>
      if String.eqb k k' then (k', f v) :: m' else (k', v) :: assign k f m'
  end.

(** ** Lookup after each operation *)

Lemma find_emplace_new k v m :
  find k m = None -> find k (emplace k v m) = Some v.
Proof.
  induction m as [|[k' v'] m IH]; simpl.
  - now rewrite String.eqb_refl.
  - destruct (String.eqb k k') eqn:He; [discriminate|]. intros Hn.
    destruct (String.compare k k') eqn:Hc; simpl.
    + apply string_compare_eq in Hc. apply String.eqb_neq in He. contradiction.
    + now rewrite String.eqb_refl.
    + rewrite He. now apply IH.
Qed.

Lemma find_emplace_other k k' v m :
  k' <> k -> find k' (emplace k v m) = find k' m.
Proof.
  intros Hne. induction m as [|[k0 v0] m IH]; simpl.
  - apply String.eqb_neq in Hne. now rewrite Hne.
  - destruct (String.compare k k0); simpl.
    + reflexivity.
    + apply String.eqb_neq in Hne. now rewrite Hne.
    + destruct (String.eqb k' k0); [reflexivity|exact IH].
Qed.

Lemma find_assign_same k f m :
  find k (assign k f m) = option_map f (find k m).
Proof.
  induction m as [|[k' v'] m IH]; simpl; [reflexivity|].
  destruct (String.eqb k k') eqn:He; simpl; rewrite He; [reflexivity|exact IH].
Qed.

Lemma find_assign_other k k' f m :
  k' <> k -> find k' (assign k f m) = find k' m.
Proof.
  intros Hne. induction m as [|[k0 v0] m IH]; simpl; [reflexivity|].
  destruct (String.eqb k k0) eqn:He; simpl.
  - apply String.eqb_eq in He. subst k0.
    apply String.eqb_neq in Hne. now rewrite Hne.
  - destruct (String.eqb k' k0); [reflexivity|exact IH].
Qed.

Lemma keys_assign k f m : keys (assign k f m) = keys m.
Proof.
  induction m as [|[k' v'] m IH]; simpl; [reflexivity|].
  destruct (String.eqb k k'); simpl; [reflexivity|].
  f_equal. exact IH.
Qed.

Lemma find_erase_same k m : find k (erase k m) = None.
Proof.
  induction m as [|[k' v'] m IH]; simpl; [reflexivity|].
  destruct (String.eqb k k') eqn:He; simpl; [exact IH|].
  now rewrite He.
Qed.

Lemma find_erase_other k k' m :
  k' <> k -> find k' (erase k m) = find k' m.
Proof.
  intros Hne. induction m as [|[k0 v0] m IH]; simpl; [reflexivity|].
  destruct (String.eqb k k0) eqn:He; simpl.
  - apply String.eqb_eq in He. subst k0.
    apply String.eqb_neq in Hne. now rewrite Hne.
  - destruct (String.eqb k' k0); [reflexivity|exact IH].
Qed.

Lemma find_none_notin k m : find k m = None <-> ~ In k (keys m).
Proof.
  induction m as [|[k' v'] m IH]; simpl.
  - tauto.
  - destruct (String.eqb k k') eqn:He.
    + apply String.eqb_eq in He. subst k'. split; [discriminate|tauto].
    + apply String.eqb_neq in He. rewrite IH. split.
      * intros H [E|E]; [now apply He|now apply H].
      * tauto.
Qed.

Lemma find_some_in k v m : find k m = Some v -> In (k, v) m.
Proof.
  induction m as [|[k' v'] m IH]; simpl; [discriminate|].
  destruct (String.eqb k k') eqn:He.
  - apply String.eqb_eq in He. subst k'. intros [= ->]. now left.
  - intros H. right. now apply IH.
Qed.

(** ** The invariant is kept *)

Lemma wf_nil : wf [].
Proof. constructor. Qed.

Lemma wf_tail e m : wf (e :: m) -> wf m.
Proof. unfold wf. simpl. intros H. now inversion H. Qed.

Lemma wf_head k v m : wf ((k, v) :: m) -> Forall (string_lt k) (keys m).
Proof. unfold wf. simpl. intros H. now inversion H. Qed.

Lemma wf_nodup m : wf m -> NoDup (keys m).
Proof.
  unfold wf. induction (keys m) as [|k l IH]; intros H.
  - constructor.
  - inversion H as [|? ? Hs Hf]; subst. constructor; [|now apply IH].
    intros Hin. rewrite Forall_forall in Hf.
    exact (string_lt_irrefl k (Hf k Hin)).
Qed.

Lemma keys_emplace_in k v m x :
  In x (keys (emplace k v m)) -> x = k \/ In x (keys m).
Proof.
  induction m as [|[k' v'] m IH]; simpl.
  - intros [E|[]]. now left.
  - destruct (String.compare k k'); simpl.
    + tauto.
    + intros [E|[E|E]]; auto.
    + intros [E|E]; auto. destruct (IH E); auto.
Qed.

Lemma wf_emplace k v m : wf m -> wf (emplace k v m).
Proof.
  induction m as [|[k' v'] m IH]; intros Hwf; simpl.
  - repeat constructor.
  - destruct (String.compare k k') eqn:Hc.
    + exact Hwf.
    + unfold wf. simpl. constructor; [exact Hwf|].
      constructor; [exact Hc|].
      apply wf_head in Hwf.
      eapply Forall_impl; [|exact Hwf].
      intros x Hx. now apply (string_lt_trans k k' x).
    + unfold wf. simpl. constructor.
      * apply IH. now apply wf_tail in Hwf.
      * apply Forall_forall. intros x Hx.
        apply keys_emplace_in in Hx. destruct Hx as [->|Hx].
        -- now apply string_compare_gt.
        -- apply wf_head in Hwf. rewrite Forall_forall in Hwf. now apply Hwf.
Qed.

Lemma keys_erase_in k m x : In x (keys (erase k m)) -> In x (keys m).
Proof.
  induction m as [|[k' v'] m IH]; simpl; [tauto|].
  destruct (String.eqb k k'); simpl; intuition.
Qed.

Lemma wf_erase k m : wf m -> wf (erase k m).
Proof.
  induction m as [|[k' v'] m IH]; intros Hwf; simpl; [exact Hwf|].
  pose proof (wf_tail _ _ Hwf) as Ht.
  destruct (String.eqb k k'); [now apply IH|].
  unfold wf. simpl. constructor; [now apply IH|].
  apply Forall_forall. intros x Hx. apply keys_erase_in in Hx.
  apply wf_head in Hwf. rewrite Forall_forall in Hwf. now apply Hwf.
Qed.

Lemma wf_assign k f m : wf m -> wf (assign k f m).
Proof. unfold wf. now rewrite keys_assign. Qed.

(** In a map the entry erased is the only one under its key, so the
    entries behind it are untouched. *)
Lemma erase_head k v m : wf ((k, v) :: m) -> erase k ((k, v) :: m) = m.
Proof.
  intros Hwf. simpl. rewrite String.eqb_refl.
  apply wf_head in Hwf. rewrite Forall_forall in Hwf.
  clear v. induction m as [|[k' v'] m IH]; simpl; [reflexivity|].
  assert (Hlt : string_lt k k') by (apply Hwf; now left).
  apply string_lt_neq, String.eqb_neq in Hlt. rewrite Hlt. f_equal.
  apply IH. intros x Hx. apply Hwf. now right.
Qed.

Lemma erase_skip k k' v m :
  k <> k' -> erase k ((k', v) :: m) = (k', v) :: erase k m.
Proof. intros Hne. simpl. apply String.eqb_neq in Hne. now rewrite Hne. Qed.

(** ** Two maps with the same content have the same entries in the same
    order *)

Lemma find_lt_head k k' v m :
  wf ((k', v) :: m) -> string_lt k k' -> find k ((k', v) :: m) = None.
Proof.
  intros Hwf Hlt. apply find_none_notin. simpl. intros [E|Hin].
  - subst k'. exact (string_lt_irrefl k Hlt).
  - apply wf_head in Hwf. rewrite Forall_forall in Hwf.
    exact (string_lt_irrefl k (string_lt_trans _ _ _ Hlt (Hwf k Hin))).
Qed.

Lemma find_head k v m : find k ((k, v) :: m) = Some v.
Proof. simpl. now rewrite String.eqb_refl. Qed.

Lemma emplace_present k v w m :
  wf m -> find k m = Some w -> emplace k v m = m.
Proof.
  induction m as [|[k' v'] m IH]; intros Hwf Hf; [discriminate|].
  simpl. destruct (String.compare k k') eqn:Hc.
  - reflexivity.
  - rewrite (find_lt_head k k' v' m Hwf Hc) in Hf. discriminate.
  - simpl in Hf. destruct (String.eqb k k') eqn:He.
    + apply String.eqb_eq in He. subst k'.
      rewrite string_compare_refl in Hc. discriminate.
    + f_equal. apply IH; [now apply wf_tail in Hwf|exact Hf].
Qed.

Lemma wf_ext (m1 m2 : smap) :
  wf m1 -> wf m2 -> (forall k, find k m1 = find k m2) -> m1 = m2.
Proof.
  revert m2. induction m1 as [|[k1 v1] m1 IH]; intros [|[k2 v2] m2] H1 H2 Hext.
  - reflexivity.
  - specialize (Hext k2). rewrite find_head in Hext. discriminate.
  - specialize (Hext k1). rewrite find_head in Hext. discriminate.
  - assert (Hk : k1 = k2).
    { destruct (String.compare k1 k2) eqn:Hc.
      - now apply string_compare_eq.
      - pose proof (Hext k1) as E. rewrite find_head in E.
        rewrite (find_lt_head k1 k2 v2 m2 H2 Hc) in E. discriminate.
      - apply string_compare_gt in Hc.
        pose proof (Hext k2) as E. rewrite find_head in E.
        rewrite (find_lt_head k2 k1 v1 m1 H1 Hc) in E. discriminate. }
    subst k2.
    pose proof (Hext k1) as E. rewrite !find_head in E. injection E as ->.
    f_equal. apply IH; [now apply wf_tail in H1|now apply wf_tail in H2|].
    intros k. specialize (Hext k). simpl in Hext.
    destruct (String.eqb k k1) eqn:He; [|exact Hext].
    apply String.eqb_eq in He. subst k.
    assert (N1 : find k1 m1 = None).
    { apply find_none_notin. apply wf_nodup in H1. now inversion H1. }
    assert (N2 : find k1 m2 = None).
    { apply find_none_notin. apply wf_nodup in H2. now inversion H2. }
    now rewrite N1, N2.
Qed.

End StdMap.

Arguments smap V : clear implicits.

(* ------------------------------------------------------------------ *)
(** * ROS time

    [ros::Time] and [ros::Duration] belong to the ROS client library.  The
    node builds a duration from seconds, adds it to a stamp and compares
    two times; nothing more is asked of them here. *)

Class RosTime := {
  Time : Type;
  Duration : Type;
  (** [Time()] *)
  Time_zero : Time;
  (** [Duration(double)] *)
  Duration_of : double -> Duration;
  (** [operator+ (Time, Duration)] *)
  Time_add : Time -> Duration -> Time;
  (** [operator< (Time, Time)] *)
  Time_ltb : Time -> Time -> bool
}.

Section Node.
Context {ros_time : RosTime}.

(** ** Messages *)

(** std_msgs/Header *)
Record Header := {
  seq : Z;
  stamp : Time;
  frame_id : string
}.

Definition Header_default : Header :=
  {| seq := 0; stamp := Time_zero; frame_id := EmptyString |}.

(** geometry_msgs/Point, Quaternion, Pose, PoseStamped *)
Record Point := { x : double; y : double; z : double }.

Record Quaternion := { qx : double; qy : double; qz : double; qw : double }.

Record Pose := { position : Point; orientation : Quaternion }.

Definition Pose_default : Pose :=
  {| position := {| x := 0%float; y := 0%float; z := 0%float |};
     orientation :=
       {| qx := 0%float; qy := 0%float; qz := 0%float; qw := 0%float |} |}.

Record PoseStamped := { ps_header : Header; ps_pose : Pose }.

(** nav_msgs/MapMetaData.  [resolution] is a float32 field; it enters
    the arithmetic of the node widened to a double, which is the value
    kept here. *)
Record MapMetaData := {
  map_load_time : Time;
  resolution : double;
  width : Z;
  height : Z;
  origin : Pose
}.

(** nav_msgs/OccupancyGrid; a cell of [data] is a signed char. *)
Record OccupancyGrid := {
  og_header : Header;
  info : MapMetaData;
  data : list Z
}.

Definition OccupancyGrid_default : OccupancyGrid :=
  {| og_header := Header_default;
     info := {| map_load_time := Time_zero; resolution := 0%float;
                width := 0; height := 0; origin := Pose_default |};
     data := [] |}.

(** swarmros/EventHeader and cpswarm_msgs/Position, the elements of
    cpswarm_msgs/ArrayOfPositions. *)
Record EventHeader := { name : string; node : string }.

Record Position := {
  pos_header : Header;
  swarmio : EventHeader;
  pos_pose : Pose
}.

(** ** The optimiser

    Modelled from the spec: the class of the global [division] object is
    declared and implemented in the area division library, which is not
    among the sources.  Its member functions are the fields of this
    interface, with the arguments the node passes them; each takes the
    object and returns it as the call leaves it.  [get_grid] is the
    spec's region extractor, "pure function, no side effects": it
    returns a grid and leaves the object alone. *)
Class AreaDivision (area_division : Type) := {
  (** the object as constructed at program start *)
  area_division_new : area_division;
  setup : Z -> double -> double -> Z -> area_division -> area_division;
  initialize_map : Z -> Z -> list Z -> area_division -> area_division;
  initialize_cps : smap (list Z) -> area_division -> area_division;
  divide : area_division -> area_division;
  get_grid : area_division -> OccupancyGrid -> string -> OccupancyGrid
}.

Context {area_division : Type} {lib : AreaDivision area_division}.

(** ** The global variables of the node

    They are declared in [area_division.h]; the types are those their
    uses in the source fix.  [swarm_pose] is searched with [find], grown
    with [emplace] and shrunk with [erase] through an iterator, like the
    [map<string, vector<int>>] that [divide_area] fills from it.
    [published] is what went out through [area_publisher], latest
    first. *)
Record State := {
  uuid : string;
  pose : Pose;
  pose_valid : bool;
  swarm_pose : smap PoseStamped;
  swarm_valid : bool;
  swarm_timeout : double;
  gridmap : OccupancyGrid;
  map_valid : bool;
  reconfigure : bool;
  visualize : bool;
  division : area_division;
  published : list OccupancyGrid
}.

Definition set_uuid (v : string) (s : State) : State :=
  {| uuid := v; pose := pose s; pose_valid := pose_valid s;
     swarm_pose := swarm_pose s; swarm_valid := swarm_valid s;
     swarm_timeout := swarm_timeout s; gridmap := gridmap s;
     map_valid := map_valid s; reconfigure := reconfigure s;
     visualize := visualize s; division := division s;
     published := published s |}.

Definition set_pose (v : Pose) (s : State) : State :=
  {| uuid := uuid s; pose := v; pose_valid := pose_valid s;
     swarm_pose := swarm_pose s; swarm_valid := swarm_valid s;
     swarm_timeout := swarm_timeout s; gridmap := gridmap s;
     map_valid := map_valid s; reconfigure := reconfigure s;
     visualize := visualize s; division := division s;
     published := published s |}.

Definition set_pose_valid (v : bool) (s : State) : State :=
  {| uuid := uuid s; pose := pose s; pose_valid := v;
     swarm_pose := swarm_pose s; swarm_valid := swarm_valid s;
     swarm_timeout := swarm_timeout s; gridmap := gridmap s;
     map_valid := map_valid s; reconfigure := reconfigure s;
     visualize := visualize s; division := division s;
     published := published s |}.

Definition set_swarm_pose (v : smap PoseStamped) (s : State) : State :=
  {| uuid := uuid s; pose := pose s; pose_valid := pose_valid s;
     swarm_pose := v; swarm_valid := swarm_valid s;
     swarm_timeout := swarm_timeout s; gridmap := gridmap s;
     map_valid := map_valid s; reconfigure := reconfigure s;
     visualize := visualize s; division := division s;
     published := published s |}.

Definition set_swarm_valid (v : bool) (s : State) : State :=
  {| uuid := uuid s; pose := pose s; pose_valid := pose_valid s;
     swarm_pose := swarm_pose s; swarm_valid := v;
     swarm_timeout := swarm_timeout s; gridmap := gridmap s;
     map_valid := map_valid s; reconfigure := reconfigure s;
     visualize := visualize s; division := division s;
     published := published s |}.

Definition set_gridmap (v : OccupancyGrid) (s : State) : State :=
  {| uuid := uuid s; pose := pose s; pose_valid := pose_valid s;
     swarm_pose := swarm_pose s; swarm_valid := swarm_valid s;
     swarm_timeout := swarm_timeout s; gridmap := v;
     map_valid := map_valid s; reconfigure := reconfigure s;
     visualize := visualize s; division := division s;
     published := published s |}.

Definition set_map_valid (v : bool) (s : State) : State :=
  {| uuid := uuid s; pose := pose s; pose_valid := pose_valid s;
     swarm_pose := swarm_pose s; swarm_valid := swarm_valid s;
     swarm_timeout := swarm_timeout s; gridmap := gridmap s;
     map_valid := v; reconfigure := reconfigure s;
     visualize := visualize s; division := division s;
     published := published s |}.

Definition set_reconfigure (v : bool) (s : State) : State :=
  {| uuid := uuid s; pose := pose s; pose_valid := pose_valid s;
     swarm_pose := swarm_pose s; swarm_valid := swarm_valid s;
     swarm_timeout := swarm_timeout s; gridmap := gridmap s;
     map_valid := map_valid s; reconfigure := v;
     visualize := visualize s; division := division s;
     published := published s |}.

Definition set_division (v : area_division) (s : State) : State :=
  {| uuid := uuid s; pose := pose s; pose_valid := pose_valid s;
     swarm_pose := swarm_pose s; swarm_valid := swarm_valid s;
     swarm_timeout := swarm_timeout s; gridmap := gridmap s;
     map_valid := map_valid s; reconfigure := reconfigure s;
     visualize := visualize s; division := v;
     published := published s |}.

Definition set_published (v : list OccupancyGrid) (s : State) : State :=
  {| uuid := uuid s; pose := pose s; pose_valid := pose_valid s;
     swarm_pose := swarm_pose s; swarm_valid := swarm_valid s;
     swarm_timeout := swarm_timeout s; gridmap := gridmap s;
     map_valid := map_valid s; reconfigure := reconfigure s;
     visualize := visualize s; division := division s;
     published := v |}.

(** ** divide_area *)

(** The two-element [vector<int> pos] that [divide_area] computes for a
    pose (lines 11 to 13 for a swarm member, 18 to 20 for this robot):
    [int(round((p - origin) / resolution))] on the x and on the y axis. *)
Definition world_to_grid (i : MapMetaData) (p : Pose) : list Z :=
  [ int_of_double
      (round (PrimFloat.div
                (PrimFloat.sub (x (position p)) (x (position (origin i))))
                (resolution i)));
    int_of_double
      (round (PrimFloat.div
                (PrimFloat.sub (y (position p)) (y (position (origin i))))
                (resolution i))) ].

(** The local [swarm_grid] when it is handed to [initialize_cps]: one
    [emplace] per entry of [swarm_pose], in iteration order, and then
    one for this robot. *)
Definition swarm_grid (s : State) : smap (list Z) :=
  let swarm_grid :=
    fold_left
      (fun g cps => emplace (fst cps) (world_to_grid (info (gridmap s)) (ps_pose (snd cps))) g)
      (swarm_pose s) [] in
  emplace (uuid s) (world_to_grid (info (gridmap s)) (pose s)) swarm_grid.

Definition divide_area (s : State) : State :=
  let swarm_grid := swarm_grid s in
  let map := data (gridmap s) in
  let d :=
    divide
      (initialize_cps swarm_grid
         (initialize_map (int_of_uint32 (width (info (gridmap s))))
                         (int_of_uint32 (height (info (gridmap s))))
                         map (division s))) in
  let s := set_division d s in
  let s :=
    if visualize s
    then set_published (get_grid (division s) (gridmap s) (uuid s) :: published s) s
    else s in
  set_reconfigure false s.

(** ** The service and the callbacks *)

(** [get_area]: the state it leaves, [res.map], and the value returned. *)
Definition get_area (s : State) : State * OccupancyGrid * bool :=
  let s := if reconfigure s then divide_area s else s in
  (s, get_grid (division s) (gridmap s) (uuid s), true).

Definition uuid_callback (msg : string) (s : State) : State :=
  set_uuid msg s.

(** [Time::isValid()] is a static member of [ros::Time]: called through
    [msg->header.stamp] it still reports on the clock of the node, so
    its result [clock_valid] comes with the call. *)
Definition pose_callback (msg : PoseStamped) (clock_valid : bool) (s : State) : State :=
  let s := set_pose (ps_pose msg) s in
  if clock_valid then set_pose_valid true s else s.

(** The body of the first loop of [swarm_callback] for one element of
    [msg->positions]; [now] is what its one call of [Time::now()]
    returns. *)
Definition update_cps (now : Time) (cps : Position) (s : State) : State :=
  match find (node (swarmio cps)) (swarm_pose s) with
  | None =>
      let pose :=
        {| ps_header := {| seq := seq Header_default; stamp := now;
                           frame_id := frame_id Header_default |};
           ps_pose := pos_pose cps |} in
      set_reconfigure true
        (set_swarm_pose (emplace (node (swarmio cps)) pose (swarm_pose s)) s)
  | Some _ =>
      set_swarm_pose
        (assign (node (swarmio cps))
           (fun idx =>
              {| ps_header := {| seq := seq (ps_header idx); stamp := now;
                                 frame_id := frame_id (ps_header idx) |};
                 ps_pose := pos_pose cps |})
           (swarm_pose s))
        s
  end.

(** The first loop.  [now i] is the i-th reading of [Time::now()] since
    the callback began; [i] counts the readings taken so far. *)
Fixpoint update_positions (now : nat -> Time) (i : nat) (positions : list Position)
    (s : State) : State :=
  match positions with
  | [] => s
  | cps :: rest => update_positions now (S i) rest (update_cps (now i) cps s)
  end.

(** Whether the second loop removes a record at the reading [t] of the
    clock. *)
Definition timed_out (timeout : double) (t : Time) (cps : string * PoseStamped) : bool :=
  Time_ltb (Time_add (stamp (ps_header (snd cps))) (Duration_of timeout)) t.

(** The second loop: the iterator [cps] runs over the entries [todo]
    that lie ahead of it; an entry that timed out is erased from
    [swarm_pose] and raises [reconfigure]. *)
Fixpoint remove_old (now : nat -> Time) (i : nat) (todo : smap PoseStamped)
    (s : State) : State :=
  match todo with
  | [] => s
  | cps :: rest =>
      if timed_out (swarm_timeout s) (now i) cps
      then remove_old now (S i) rest
             (set_reconfigure true (set_swarm_pose (erase (fst cps) (swarm_pose s)) s))
      else remove_old now (S i) rest s
  end.

Definition swarm_callback (msg : list Position) (now : nat -> Time) (s : State) : State :=
  let s := update_positions now 0 msg s in
  let s := remove_old now (List.length msg) (swarm_pose s) s in
  set_swarm_valid true s.

Definition map_callback (msg : OccupancyGrid) (s : State) : State :=
  set_map_valid true (set_gridmap msg s).

(** ** main *)

(** The parameter server as [main] reads it: a parameter is set or not. *)
Record Parameters := {
  loop_rate_param : option double;
  queue_size_param : option Z;
  swarm_timeout_param : option double;
  visualize_param : option bool
}.

(** The globals when [main] has read the parameters and initialised the
    flags (lines 149 to 163).  The ones it does not assign have the value
    their constructor gave them.  [loop_rate] and [queue_size] set the
    pace of the loops and the length of the message queues, which the
    inputs of [main_step] stand for. *)
Definition main_init (server : Parameters) : State :=
  {| reconfigure := true;
     swarm_timeout := param (swarm_timeout_param server) 5%float;
     visualize := param (visualize_param server) false;
     uuid := EmptyString;
     pose_valid := false;
     swarm_valid := false;
     map_valid := false;
     pose := Pose_default;
     swarm_pose := [];
     gridmap := OccupancyGrid_default;
     division := area_division_new;
     published := [] |}.

(** A message delivered to one of the four subscribers. *)
Inductive Callback :=
| on_uuid (msg : string)
| on_pose (msg : PoseStamped) (clock_valid : bool)
| on_swarm (msg : list Position) (now : nat -> Time)
| on_map (msg : OccupancyGrid).

Definition call (cb : Callback) (s : State) : State :=
  match cb with
  | on_uuid msg => uuid_callback msg s
  | on_pose msg clock_valid => pose_callback msg clock_valid s
  | on_swarm msg now => swarm_callback msg now s
  | on_map msg => map_callback msg s
  end.

(** [spinOnce()]: the callbacks of the messages waiting, in order. *)
Definition spinOnce (queue : list Callback) (s : State) : State :=
  fold_left (fun s cb => call cb s) queue s.

(** Where [main] stands: in one of its three waiting loops (init uuid,
    init position, init map), in [spin()] with the service advertised,
    or past [spin()]. *)
Inductive Phase :=
| AwaitingIdentity
| AwaitingPoseSwarm
| AwaitingMap
| Ready
| Stopped.

Definition phase_rank (p : Phase) : nat :=
  match p with
  | AwaitingIdentity => 0
  | AwaitingPoseSwarm => 1
  | AwaitingMap => 2
  | Ready => 3
  | Stopped => 4
  end.

Record Node := { phase : Phase; st : State }.

(** Lines 197 to 202: the optimiser is configured with the constants of
    the source and the service is advertised. *)
Definition configure (s : State) : State :=
  set_division (setup 1 0.01%float 1e-4%float 30 (division s)) s.

Definition area_service (s : State) : Node :=
  {| phase := Ready; st := configure s |}.

(** The heads of the three loops, with [ok()] true: each either stays
    in its loop or falls through to the next. *)
Definition init_map (s : State) : Node :=
  if eqb (map_valid s) false
  then {| phase := AwaitingMap; st := s |}
  else area_service s.

Definition init_position (s : State) : Node :=
  if eqb (pose_valid s) false || eqb (swarm_valid s) false
  then {| phase := AwaitingPoseSwarm; st := s |}
  else init_map s.

Definition init_uuid (s : State) : Node :=
  if String.eqb (uuid s) EmptyString
  then {| phase := AwaitingIdentity; st := s |}
  else init_position s.

(** What happens to the node next: a round of a waiting loop
    ([rate.sleep(); spinOnce()]) or a batch of messages during
    [spin()]; a call of the service [area/assigned]; or the shutdown of
    the node, after which [ok()] is false. *)
Inductive Input :=
| Spin (queue : list Callback)
| Request
| Shutdown.

(** One step of [main], with the response when a request is served.
    Before [advertiseService] the service does not exist, so a request
    reaches nothing.  When [ok()] turns false in a waiting loop, the
    loops fall through, [setup] still runs, and a node that is shut
    down neither advertises nor spins. *)
Definition main_step (i : Input) (n : Node) : Node * option OccupancyGrid :=
  match phase n, i with
  | Stopped, _ => (n, None)
  | Ready, Shutdown => ({| phase := Stopped; st := st n |}, None)
  | _, Shutdown => ({| phase := Stopped; st := configure (st n) |}, None)
  | AwaitingIdentity, Spin queue => (init_uuid (spinOnce queue (st n)), None)
  | AwaitingPoseSwarm, Spin queue => (init_position (spinOnce queue (st n)), None)
  | AwaitingMap, Spin queue => (init_map (spinOnce queue (st n)), None)
  | Ready, Spin queue => ({| phase := Ready; st := spinOnce queue (st n) |}, None)
  | Ready, Request =>
      let '(s, res, _) := get_area (st n) in
      ({| phase := Ready; st := s |}, Some res)
  | _, Request => (n, None)
  end.

(** [main] from its first line: the node after the inputs. *)
Definition main_start (server : Parameters) : Node :=
  init_uuid (main_init server).

Definition main_run (server : Parameters) (inputs : list Input) : Node :=
  fold_left (fun n i => fst (main_step i n)) inputs (main_start server).

(* ------------------------------------------------------------------ *)
(** * Properties *)

(** ** What the two loops of [swarm_callback] leave alone *)

(** [registry_frame s s']: from [s] to [s'] nothing changed but, possibly,
    [swarm_pose] and [reconfigure]. *)
Definition registry_frame (s s' : State) : Prop :=
  uuid s' = uuid s /\ pose s' = pose s /\ pose_valid s' = pose_valid s /\
  swarm_valid s' = swarm_valid s /\ swarm_timeout s' = swarm_timeout s /\
  gridmap s' = gridmap s /\ map_valid s' = map_valid s /\
  visualize s' = visualize s /\ division s' = division s /\
  published s' = published s.

Lemma registry_frame_refl s : registry_frame s s.
Proof. unfold registry_frame. repeat split. Qed.

Lemma registry_frame_trans s1 s2 s3 :
  registry_frame s1 s2 -> registry_frame s2 s3 -> registry_frame s1 s3.
Proof.
  unfold registry_frame. intros H12 H23.
  decompose [and] H12. decompose [and] H23. repeat split; congruence.
Qed.

Lemma update_cps_frame now cps s : registry_frame s (update_cps now cps s).
Proof.
  unfold update_cps, registry_frame.
  destruct (find (node (swarmio cps)) (swarm_pose s)); simpl; repeat split.
Qed.

Lemma update_positions_frame now positions :
  forall i s, registry_frame s (update_positions now i positions s).
Proof.
  induction positions as [|cps rest IH]; intros i s; simpl.
  - apply registry_frame_refl.
  - eapply registry_frame_trans; [apply update_cps_frame|apply IH].
Qed.

Lemma remove_old_frame now todo :
  forall i s, registry_frame s (remove_old now i todo s).
Proof.
  induction todo as [|cps rest IH]; intros i s; simpl.
  - apply registry_frame_refl.
  - destruct (timed_out (swarm_timeout s) (now i) cps).
    + eapply registry_frame_trans; [|apply IH].
      unfold registry_frame. simpl. repeat split.
    + apply IH.
Qed.

Lemma swarm_callback_frame msg now s :
  uuid (swarm_callback msg now s) = uuid s /\
  pose (swarm_callback msg now s) = pose s /\
  pose_valid (swarm_callback msg now s) = pose_valid s /\
  swarm_valid (swarm_callback msg now s) = true /\
  swarm_timeout (swarm_callback msg now s) = swarm_timeout s /\
  gridmap (swarm_callback msg now s) = gridmap s /\
  map_valid (swarm_callback msg now s) = map_valid s /\
  visualize (swarm_callback msg now s) = visualize s /\
  division (swarm_callback msg now s) = division s /\
  published (swarm_callback msg now s) = published s.
Proof.
  unfold swarm_callback. simpl.
  pose proof (update_positions_frame now msg 0%nat s) as H1.
  pose proof (remove_old_frame now (swarm_pose (update_positions now 0 msg s))
                (List.length msg) (update_positions now 0 msg s)) as H2.
  pose proof (registry_frame_trans _ _ _ H1 H2) as H.
  unfold registry_frame in H. decompose [and] H. repeat split; assumption.
Qed.

(** ** The query *)

(** C1: a call of [get_area] with [reconfigure] set runs [divide_area]
    first (the optimiser is initialised with the map and the swarm grid
    and divides) and answers from the new division; with [reconfigure]
    clear it changes nothing and answers from the division it finds; in
    both cases [reconfigure] is false afterwards. *)
Theorem get_area_reconfigure (s : State) :
  (reconfigure s = true ->
     fst (fst (get_area s)) = divide_area s /\
     division (divide_area s) =
       divide
         (initialize_cps (swarm_grid s)
            (initialize_map (int_of_uint32 (width (info (gridmap s))))
                            (int_of_uint32 (height (info (gridmap s))))
                            (data (gridmap s)) (division s))) /\
     snd (fst (get_area s)) =
       get_grid (division (divide_area s)) (gridmap s) (uuid s)) /\
  (reconfigure s = false ->
     fst (fst (get_area s)) = s /\
     snd (fst (get_area s)) = get_grid (division s) (gridmap s) (uuid s)) /\
  reconfigure (fst (fst (get_area s))) = false /\
  snd (get_area s) = true.
Proof.
  unfold get_area. split; [|split; [|split]].
  - intros ->. simpl. unfold divide_area. simpl.
    destruct (visualize s); simpl; repeat split.
  - intros ->. simpl. split; reflexivity.
  - destruct (reconfigure s) eqn:Hr; simpl; [|exact Hr].
    unfold divide_area. simpl. destruct (visualize s); reflexivity.
  - reflexivity.
Qed.

(** ** The map *)

(** C8: [map_callback] stores the grid it receives as a whole and sets
    [map_valid]; [reconfigure], the registry, the own pose, the identity
    and every other variable stay as they were. *)
Theorem map_callback_frame (msg : OccupancyGrid) (s : State) :
  gridmap (map_callback msg s) = msg /\
  map_valid (map_callback msg s) = true /\
  reconfigure (map_callback msg s) = reconfigure s /\
  swarm_pose (map_callback msg s) = swarm_pose s /\
  pose (map_callback msg s) = pose s /\
  uuid (map_callback msg s) = uuid s /\
  pose_valid (map_callback msg s) = pose_valid s /\
  swarm_valid (map_callback msg s) = swarm_valid s /\
  swarm_timeout (map_callback msg s) = swarm_timeout s /\
  visualize (map_callback msg s) = visualize s /\
  division (map_callback msg s) = division s /\
  published (map_callback msg s) = published s.
Proof. unfold map_callback. simpl. repeat split. Qed.

(** ** The identity *)

Lemma divide_area_uuid s : uuid (divide_area s) = uuid s.
Proof. unfold divide_area. simpl. destruct (visualize s); reflexivity. Qed.

Lemma get_area_uuid s : uuid (fst (fst (get_area s))) = uuid s.
Proof.
  unfold get_area. simpl. destruct (reconfigure s); [apply divide_area_uuid|reflexivity].
Qed.

(** C3, as the code has it: [uuid] always holds the value of the latest
    message of the identity provider.  Such a message overwrites it
    whenever it arrives, whatever was stored and whatever it carries; the
    other callbacks and the service leave it as it is. *)
Theorem uuid_latest_message (cb : Callback) (s : State) :
  uuid (call cb s) =
    match cb with
    | on_uuid msg => msg
    | _ => uuid s
    end /\
  uuid (fst (fst (get_area s))) = uuid s.
Proof.
  split; [|apply get_area_uuid].
  destruct cb as [msg|msg v|msg now|msg]; simpl.
  - reflexivity.
  - unfold pose_callback. destruct v; reflexivity.
  - apply swarm_callback_frame.
  - reflexivity.
Qed.

(** ** The registry *)

(** C4: for one position report, when the id is not in the registry the
    registry gains a record under it with the pose reported and the time
    of the clock, and [reconfigure] is set; when the id is present only
    the pose and the stamp of its record change, the keys stay, and
    [reconfigure] keeps its value.  The records of other ids and all
    other variables are untouched either way. *)
Theorem update_cps_spec (now : Time) (cps : Position) (s : State) :
  let id := node (swarmio cps) in
  let s' := update_cps now cps s in
  (find id (swarm_pose s) = None ->
     find id (swarm_pose s') =
       Some {| ps_header := {| seq := 0; stamp := now; frame_id := EmptyString |};
               ps_pose := pos_pose cps |} /\
     reconfigure s' = true) /\
  (forall old, find id (swarm_pose s) = Some old ->
     find id (swarm_pose s') =
       Some {| ps_header := {| seq := seq (ps_header old); stamp := now;
                               frame_id := frame_id (ps_header old) |};
               ps_pose := pos_pose cps |} /\
     keys (swarm_pose s') = keys (swarm_pose s) /\
     reconfigure s' = reconfigure s) /\
  (forall k, k <> id -> find k (swarm_pose s') = find k (swarm_pose s)) /\
  registry_frame s s'.
Proof.
  intros id s'. subst id s'. unfold update_cps.
  destruct (find (node (swarmio cps)) (swarm_pose s)) as [old|] eqn:Hf; simpl.
  - split; [discriminate|]. split; [|split].
    + intros old' [= <-]. rewrite find_assign_same, Hf. simpl.
      rewrite keys_assign. repeat split.
    + intros k Hk. now apply find_assign_other.
    + unfold registry_frame. simpl. repeat split.
  - split; [|split; [discriminate|split]].
    + intros _. split; [|reflexivity]. now apply find_emplace_new.
    + intros k Hk. now apply find_emplace_other.
    + unfold registry_frame. simpl. repeat split.
Qed.

(** ** Pruning *)

(** The records that the second loop keeps: those whose check, at its
    own reading of the clock, does not find them timed out. *)
Fixpoint kept (timeout : double) (now : nat -> Time) (i : nat)
    (m : smap PoseStamped) : smap PoseStamped :=
  match m with
  | [] => []
  | cps :: rest =>
      if timed_out timeout (now i) cps
      then kept timeout now (S i) rest
      else cps :: kept timeout now (S i) rest
  end.

Lemma kept_length timeout now m :
  forall i, (List.length (kept timeout now i m) <= List.length m)%nat.
Proof.
  induction m as [|cps rest IH]; intros i; simpl; [lia|].
  destruct (timed_out timeout (now i) cps); simpl; specialize (IH (S i)); lia.
Qed.

Lemma kept_steady_clock timeout now t m :
  (forall j, now j = t) ->
  forall i, kept timeout now i m = filter (fun cps => negb (timed_out timeout t cps)) m.
Proof.
  intros Hnow. induction m as [|cps rest IH]; intros i; simpl; [reflexivity|].
  rewrite Hnow. destruct (timed_out timeout t cps); simpl; now rewrite IH.
Qed.

Lemma erase_middle {V : Type} (done : smap V) k v rest :
  wf (done ++ (k, v) :: rest) -> erase k (done ++ (k, v) :: rest) = done ++ rest.
Proof.
  induction done as [|[k0 v0] done IH]; intros Hwf.
  - now apply erase_head.
  - simpl app in *. rewrite erase_skip.
    + f_equal. apply IH. now apply wf_tail in Hwf.
    + apply wf_head in Hwf. rewrite Forall_forall in Hwf.
      intros ->. apply (string_lt_irrefl k0). apply Hwf.
      unfold keys. rewrite map_app. apply in_or_app. right. now left.
Qed.

Lemma remove_old_from now todo :
  forall done i s,
    swarm_pose s = done ++ todo -> wf (done ++ todo) ->
    swarm_pose (remove_old now i todo s) = done ++ kept (swarm_timeout s) now i todo /\
    reconfigure (remove_old now i todo s) =
      reconfigure s || (List.length (kept (swarm_timeout s) now i todo) <? List.length todo)%nat.
Proof.
  induction todo as [|[k v] rest IH]; intros done i s Hs Hwf; simpl.
  - split; [exact Hs|]. now rewrite orb_false_r.
  - destruct (timed_out (swarm_timeout s) (now i) (k, v)) eqn:Ht.
    + assert (He : erase k (swarm_pose s) = done ++ rest).
      { rewrite Hs. now apply erase_middle. }
      destruct (IH done (S i)
                  (set_reconfigure true (set_swarm_pose (erase k (swarm_pose s)) s)))
        as [Hp Hr].
      * exact He.
      * rewrite <- He. apply wf_erase. now rewrite Hs.
      * simpl in Hp, Hr. split; [exact Hp|]. rewrite Hr.
        pose proof (kept_length (swarm_timeout s) now rest (S i)) as Hl.
        apply Nat.lt_succ_r, Nat.ltb_lt in Hl. rewrite Hl.
        now rewrite orb_true_r.
    + destruct (IH (done ++ [(k, v)]) (S i) s) as [Hp Hr].
      * now rewrite <- app_assoc.
      * now rewrite <- app_assoc.
      * rewrite <- app_assoc in Hp. split; [exact Hp|]. exact Hr.
Qed.

(** C5: the second loop of [swarm_callback] leaves in the registry
    exactly the records for which [stamp + timeout < now] did not hold
    when they were checked, unchanged and in their order (with one time
    [t] for the whole loop: those that pass the filter "not
    [stamp + timeout < t]"); [reconfigure] is set as soon as one record
    was removed, and keeps its value when none was.  Nothing else
    changes. *)
Theorem remove_old_spec (now : nat -> Time) (i : nat) (s : State) :
  wf (swarm_pose s) ->
  let s' := remove_old now i (swarm_pose s) s in
  swarm_pose s' = kept (swarm_timeout s) now i (swarm_pose s) /\
  (forall t, (forall j, now j = t) ->
     swarm_pose s' =
       filter (fun cps => negb (timed_out (swarm_timeout s) t cps)) (swarm_pose s)) /\
  ((List.length (swarm_pose s') < List.length (swarm_pose s))%nat ->
     reconfigure s' = true) /\
  (List.length (swarm_pose s') = List.length (swarm_pose s) ->
     reconfigure s' = reconfigure s) /\
  registry_frame s s'.
Proof.
  intros Hwf s'. subst s'.
  destruct (remove_old_from now (swarm_pose s) [] i s eq_refl Hwf) as [Hp Hr].
  simpl in Hp. split; [exact Hp|]. split; [|split; [|split]].
  - intros t Ht. rewrite Hp. now apply kept_steady_clock.
  - intros Hlt. rewrite Hr. rewrite Hp in Hlt.
    apply Nat.ltb_lt in Hlt. rewrite Hlt. apply orb_true_r.
  - intros Heq. rewrite Hr. rewrite Hp in Heq. rewrite Heq.
    rewrite Nat.ltb_irrefl. apply orb_false_r.
  - apply remove_old_frame.
Qed.

(** ** The swarm grid *)

Lemma find_emplace {V : Type} k (v : V) m :
  wf m ->
  find k (emplace k v m) = match find k m with Some w => Some w | None => Some v end.
Proof.
  intros Hwf. destruct (find k m) as [w|] eqn:Hf.
  - now rewrite (emplace_present k v w m Hwf Hf).
  - now apply find_emplace_new.
Qed.

Lemma find_in_nodup {V : Type} k (v : V) m :
  NoDup (keys m) -> In (k, v) m -> find k m = Some v.
Proof.
  induction m as [|[k' v'] m IH]; intros Hnd Hin; [contradiction|].
  simpl in *. inversion Hnd as [|? ? Hnotin Hnd']; subst.
  destruct Hin as [[= -> ->]|Hin].
  - now rewrite String.eqb_refl.
  - destruct (String.eqb k k') eqn:He.
    + apply String.eqb_eq in He. subst k'. exfalso. apply Hnotin.
      change k with (fst (k, v)). now apply in_map.
    + now apply IH.
Qed.

(** The lookup in a container without repeated keys does not depend on
    the order in which it lists its entries. *)
Lemma find_permutation {V : Type} (m1 m2 : smap V) k :
  Permutation m1 m2 -> NoDup (keys m1) -> find k m1 = find k m2.
Proof.
  intros Hp Hnd.
  assert (Hnd2 : NoDup (keys m2)).
  { eapply Permutation_NoDup; [|exact Hnd]. now apply Permutation_map. }
  destruct (find k m1) as [v|] eqn:H1.
  - symmetry. apply find_in_nodup; [exact Hnd2|].
    eapply Permutation_in; [exact Hp|]. now apply find_some_in.
  - symmetry. apply find_none_notin. apply find_none_notin in H1.
    intros Hin. apply H1. eapply Permutation_in; [|exact Hin].
    apply Permutation_map. now apply Permutation_sym.
Qed.

Section SwarmGrid.
Variable i : MapMetaData.

(** The step of the first loop of [divide_area]. *)
Let step (g : smap (list Z)) (cps : string * PoseStamped) : smap (list Z) :=
  emplace (fst cps) (world_to_grid i (ps_pose (snd cps))) g.

Lemma fold_emplace_wf l : forall g, wf g -> wf (fold_left step l g).
Proof.
  induction l as [|cps l IH]; intros g Hwf; simpl; [exact Hwf|].
  apply IH. now apply wf_emplace.
Qed.

Lemma fold_emplace_find k l :
  forall g, wf g ->
    find k (fold_left step l g) =
      match find k g with
      | Some w => Some w
      | None => option_map (fun cps => world_to_grid i (ps_pose cps)) (find k l)
      end.
Proof.
  induction l as [|[k' ps] l IH]; intros g Hwf; simpl.
  - now destruct (find k g).
  - rewrite IH by now apply wf_emplace. unfold step. simpl.
    destruct (String.eqb k k') eqn:He.
    + apply String.eqb_eq in He. subst k'. rewrite find_emplace by exact Hwf.
      now destruct (find k g).
    + apply String.eqb_neq in He. now rewrite find_emplace_other.
Qed.

End SwarmGrid.

Lemma swarm_grid_wf s : wf (swarm_grid s).
Proof.
  unfold swarm_grid. apply wf_emplace. apply fold_emplace_wf. apply wf_nil.
Qed.

(** Every id of the registry and the own id have an entry in the swarm
    grid, and no other id has; an id of the registry has the coordinates
    of its record. *)
Lemma swarm_grid_find s k :
  find k (swarm_grid s) =
    match find k (swarm_pose s) with
    | Some cps => Some (world_to_grid (info (gridmap s)) (ps_pose cps))
    | None =>
        if String.eqb k (uuid s)
        then Some (world_to_grid (info (gridmap s)) (pose s))
        else None
    end.
Proof.
  unfold swarm_grid.
  pose proof (fold_emplace_wf (info (gridmap s)) (swarm_pose s) [] wf_nil) as Hwf.
  pose proof (fold_emplace_find (info (gridmap s)) k (swarm_pose s) [] wf_nil) as Hf.
  simpl in Hf. destruct (String.eqb k (uuid s)) eqn:He.
  - apply String.eqb_eq in He. subst k. rewrite find_emplace by exact Hwf.
    rewrite Hf. now destruct (find (uuid s) (swarm_pose s)).
  - apply String.eqb_neq in He. rewrite find_emplace_other by exact He.
    rewrite Hf. now destruct (find k (swarm_pose s)).
Qed.

(** C9: the swarm grid handed to the optimiser lists the ids in lexical
    order; it is the same for two states whose registries hold the same
    records, in whatever order they enumerate them, and whose own pose,
    identity and map agree; and with the same optimiser object the two
    runs of [divide_area] leave the same division. *)
Theorem swarm_grid_order (s1 s2 : State) :
  Permutation (swarm_pose s1) (swarm_pose s2) ->
  NoDup (keys (swarm_pose s1)) ->
  pose s1 = pose s2 -> uuid s1 = uuid s2 -> gridmap s1 = gridmap s2 ->
  StronglySorted string_lt (keys (swarm_grid s1)) /\
  swarm_grid s1 = swarm_grid s2 /\
  (division s1 = division s2 ->
   division (divide_area s1) = division (divide_area s2)).
Proof.
  intros Hperm Hnd Hpose Huuid Hmap.
  assert (Heq : swarm_grid s1 = swarm_grid s2).
  { apply wf_ext; try apply swarm_grid_wf.
    intros k. rewrite !swarm_grid_find.
    rewrite (find_permutation _ _ k Hperm Hnd).
    now rewrite Hpose, Huuid, Hmap. }
  split; [apply swarm_grid_wf|]. split; [exact Heq|].
  intros Hdiv. unfold divide_area. simpl.
  rewrite Heq, Hmap, Hdiv.
  destruct (visualize s1), (visualize s2); reflexivity.
Qed.

(** C10, as the code has it: every run of [divide_area] hands the
    optimiser a swarm grid that is not empty and has an entry for the own
    id.  The entry holds the own grid coordinates when the registry has
    no record under the own id; when it has one, the entry holds the
    coordinates of that record, since [emplace] keeps what is there. *)
Theorem swarm_grid_own (s : State) :
  division (divide_area s) =
    divide
      (initialize_cps (swarm_grid s)
         (initialize_map (int_of_uint32 (width (info (gridmap s))))
                         (int_of_uint32 (height (info (gridmap s))))
                         (data (gridmap s)) (division s))) /\
  swarm_grid s <> [] /\
  In (uuid s) (keys (swarm_grid s)) /\
  (find (uuid s) (swarm_pose s) = None ->
   find (uuid s) (swarm_grid s) = Some (world_to_grid (info (gridmap s)) (pose s))) /\
  (forall cps, find (uuid s) (swarm_pose s) = Some cps ->
   find (uuid s) (swarm_grid s) = Some (world_to_grid (info (gridmap s)) (ps_pose cps))).
Proof.
  assert (Hin : In (uuid s) (keys (swarm_grid s))).
  { destruct (find (uuid s) (swarm_grid s)) as [v|] eqn:Hf.
    - apply find_some_in in Hf. change (uuid s) with (fst (uuid s, v)).
      now apply in_map.
    - rewrite swarm_grid_find, String.eqb_refl in Hf.
      destruct (find (uuid s) (swarm_pose s)); discriminate. }
  split; [|split; [|split; [exact Hin|split]]].
  - unfold divide_area. simpl. destruct (visualize s); reflexivity.
  - intros He. rewrite He in Hin. exact Hin.
  - intros Hn. now rewrite swarm_grid_find, Hn, String.eqb_refl.
  - intros cps Hc. now rewrite swarm_grid_find, Hc.
Qed.

(** C2, as the code has it: each coordinate is
    [int(round((world - origin) / resolution))]; the conversion reads
    the origin and the resolution of the map only, so its result is the
    same whatever the width, the height and the cells are, and every id
    of the registry gets its coordinates into the swarm grid, inside the
    map or not. *)
Theorem world_to_grid_unchecked (s : State) (p : Pose) (w h : Z) (cells : list Z) :
  let i := info (gridmap s) in
  world_to_grid i p =
    [ int_of_double
        (round (PrimFloat.div
                  (PrimFloat.sub (x (position p)) (x (position (origin i))))
                  (resolution i)));
      int_of_double
        (round (PrimFloat.div
                  (PrimFloat.sub (y (position p)) (y (position (origin i))))
                  (resolution i))) ] /\
  world_to_grid
    {| map_load_time := map_load_time i; resolution := resolution i;
       width := w; height := h; origin := origin i |} p = world_to_grid i p /\
  (forall k cps, find k (swarm_pose s) = Some cps ->
     find k (swarm_grid s) = Some (world_to_grid i (ps_pose cps))) /\
  swarm_grid
    (set_gridmap {| og_header := og_header (gridmap s);
                    info := {| map_load_time := map_load_time i;
                               resolution := resolution i;
                               width := w; height := h; origin := origin i |};
                    data := cells |} s) = swarm_grid s.
Proof.
  intros i. subst i. split; [reflexivity|]. split; [reflexivity|].
  split; [|reflexivity].
  intros k cps Hf. now rewrite swarm_grid_find, Hf.
Qed.

(** ** main: what the callbacks and the service keep *)

(** [keeps s s']: from [s] to [s'] the timeout is the same and no
    validity flag was lowered. *)
Definition keeps (s s' : State) : Prop :=
  swarm_timeout s' = swarm_timeout s /\
  (pose_valid s = true -> pose_valid s' = true) /\
  (swarm_valid s = true -> swarm_valid s' = true) /\
  (map_valid s = true -> map_valid s' = true).

Lemma keeps_refl s : keeps s s.
Proof. unfold keeps. tauto. Qed.

Lemma keeps_trans s1 s2 s3 : keeps s1 s2 -> keeps s2 s3 -> keeps s1 s3.
Proof.
  unfold keeps. intros (T1 & P1 & S1 & M1) (T2 & P2 & S2 & M2).
  repeat split; [congruence|auto..].
Qed.

Lemma call_keeps cb s : keeps s (call cb s).
Proof.
  destruct cb as [msg|msg v|msg now|msg]; simpl.
  - unfold keeps. simpl. tauto.
  - unfold keeps, pose_callback. destruct v; simpl; tauto.
  - pose proof (swarm_callback_frame msg now s) as H.
    decompose [and] H. unfold keeps. repeat split; congruence.
  - unfold keeps. simpl. tauto.
Qed.

Lemma call_division cb s : division (call cb s) = division s.
Proof.
  destruct cb as [msg|msg v|msg now|msg]; simpl; try reflexivity.
  - unfold pose_callback. destruct v; reflexivity.
  - apply swarm_callback_frame.
Qed.

Lemma spinOnce_keeps queue : forall s, keeps s (spinOnce queue s).
Proof.
  unfold spinOnce. induction queue as [|cb queue IH]; intros s; simpl.
  - apply keeps_refl.
  - eapply keeps_trans; [apply call_keeps|apply IH].
Qed.

Lemma spinOnce_division queue : forall s, division (spinOnce queue s) = division s.
Proof.
  unfold spinOnce. induction queue as [|cb queue IH]; intros s; simpl.
  - reflexivity.
  - rewrite IH. apply call_division.
Qed.

Lemma divide_area_keeps s : keeps s (divide_area s).
Proof.
  unfold keeps, divide_area. simpl. destruct (visualize s); simpl; tauto.
Qed.

Lemma get_area_keeps s : keeps s (fst (fst (get_area s))).
Proof.
  unfold get_area. simpl.
  destruct (reconfigure s); [apply divide_area_keeps|apply keeps_refl].
Qed.

Lemma configure_keeps s : keeps s (configure s).
Proof. unfold keeps, configure. simpl. tauto. Qed.

(** ** main: the heads of the loops *)

Lemma init_map_cases s :
  (map_valid s = false /\ init_map s = {| phase := AwaitingMap; st := s |}) \/
  (map_valid s = true /\ init_map s = {| phase := Ready; st := configure s |}).
Proof. unfold init_map, area_service. destruct (map_valid s); simpl; auto. Qed.

Lemma init_position_cases s :
  (init_position s = {| phase := AwaitingPoseSwarm; st := s |}) \/
  (pose_valid s = true /\ swarm_valid s = true /\ init_position s = init_map s).
Proof.
  unfold init_position. destruct (pose_valid s), (swarm_valid s); simpl; auto.
Qed.

Lemma init_uuid_cases s :
  (uuid s = EmptyString /\ init_uuid s = {| phase := AwaitingIdentity; st := s |}) \/
  (uuid s <> EmptyString /\ init_uuid s = init_position s).
Proof.
  unfold init_uuid. destruct (String.eqb (uuid s) EmptyString) eqn:He.
  - left. split; [now apply String.eqb_eq|reflexivity].
  - right. split; [now apply String.eqb_neq|reflexivity].
Qed.

(** The validity flags that a phase vouches for. *)
Definition staged (n : Node) : Prop :=
  (phase n = AwaitingMap ->
   pose_valid (st n) = true /\ swarm_valid (st n) = true) /\
  (phase n = Ready ->
   pose_valid (st n) = true /\ swarm_valid (st n) = true /\ map_valid (st n) = true).

Lemma init_map_staged s :
  pose_valid s = true -> swarm_valid s = true -> staged (init_map s).
Proof.
  intros Hp Hs. unfold staged.
  destruct (init_map_cases s) as [[Hm ->]|[Hm ->]]; simpl.
  - split; [auto|discriminate].
  - split; [discriminate|auto].
Qed.

Lemma init_position_staged s : staged (init_position s).
Proof.
  destruct (init_position_cases s) as [->|(Hp & Hs & ->)].
  - unfold staged. simpl. split; discriminate.
  - now apply init_map_staged.
Qed.

Lemma init_uuid_staged s : staged (init_uuid s).
Proof.
  destruct (init_uuid_cases s) as [[_ ->]|[_ ->]].
  - unfold staged. simpl. split; discriminate.
  - apply init_position_staged.
Qed.

Lemma init_map_rank s : (2 <= phase_rank (phase (init_map s)))%nat.
Proof. destruct (init_map_cases s) as [[_ ->]|[_ ->]]; simpl; lia. Qed.

Lemma init_position_rank s : (1 <= phase_rank (phase (init_position s)))%nat.
Proof.
  destruct (init_position_cases s) as [->|(_ & _ & ->)]; simpl; [lia|].
  pose proof (init_map_rank s). lia.
Qed.

Lemma init_map_uuid s : uuid (st (init_map s)) = uuid s.
Proof. destruct (init_map_cases s) as [[_ ->]|[_ ->]]; reflexivity. Qed.

Lemma init_position_uuid s : uuid (st (init_position s)) = uuid s.
Proof.
  destruct (init_position_cases s) as [->|(_ & _ & ->)];
    [reflexivity|apply init_map_uuid].
Qed.

Lemma init_map_keeps s : keeps s (st (init_map s)).
Proof.
  destruct (init_map_cases s) as [[_ ->]|[_ ->]]; simpl;
    [apply keeps_refl|apply configure_keeps].
Qed.

Lemma init_position_keeps s : keeps s (st (init_position s)).
Proof.
  destruct (init_position_cases s) as [->|(_ & _ & ->)];
    [apply keeps_refl|apply init_map_keeps].
Qed.

Lemma init_uuid_keeps s : keeps s (st (init_uuid s)).
Proof.
  destruct (init_uuid_cases s) as [[_ ->]|[_ ->]];
    [apply keeps_refl|apply init_position_keeps].
Qed.

(** ** main: one step *)

Lemma main_step_keeps i n : keeps (st n) (st (fst (main_step i n))).
Proof.
  unfold main_step. destruct (phase n), i as [queue| |];
    try (cbn [fst st];
         first [ apply keeps_refl
               | apply configure_keeps
               | eapply keeps_trans;
                 [ apply spinOnce_keeps
                 | first [ apply init_uuid_keeps | apply init_position_keeps
                         | apply init_map_keeps | apply keeps_refl ] ] ];
         fail).
  pose proof (get_area_keeps (st n)) as H.
  destruct (get_area (st n)) as [[s res] b]. exact H.
Qed.

Lemma main_step_staged i n : staged n -> staged (fst (main_step i n)).
Proof.
  intros Hn. pose proof Hn as [Hmap Hready]. unfold main_step.
  destruct (phase n) eqn:Hph, i as [queue| |]; cbn [fst];
    try exact Hn;
    try (unfold staged; cbn [phase st]; split; discriminate).
  - apply init_uuid_staged.
  - apply init_position_staged.
  - destruct Hmap as [Hp Hs]; [reflexivity|].
    destruct (spinOnce_keeps queue (st n)) as (_ & P & S & _).
    apply init_map_staged; auto.
  - destruct Hready as (Hp & Hs & Hm); [reflexivity|].
    destruct (spinOnce_keeps queue (st n)) as (_ & P & S & M).
    unfold staged. cbn [phase st]. split; [discriminate|]. auto.
  - destruct Hready as (Hp & Hs & Hm); [reflexivity|].
    pose proof (get_area_keeps (st n)) as (_ & P & S & M).
    destruct (get_area (st n)) as [[s res] b]. cbn [fst st] in *.
    unfold staged. cbn [phase st]. split; [discriminate|]. auto.
Qed.

Lemma main_step_rank i n :
  (phase_rank (phase n) <= phase_rank (phase (fst (main_step i n))))%nat.
Proof.
  unfold main_step. destruct (phase n) eqn:Hph, i as [queue| |]; simpl;
    try rewrite Hph; simpl; try lia.
  - apply init_position_rank.
  - apply init_map_rank.
Qed.

Lemma main_step_response i n res :
  snd (main_step i n) = Some res -> phase n = Ready /\ i = Request.
Proof.
  unfold main_step. destruct (phase n), i as [queue| |]; simpl;
    try discriminate.
  intros _. split; reflexivity.
Qed.

Lemma main_step_leaves_identity i n :
  phase n = AwaitingIdentity ->
  In (phase (fst (main_step i n))) [AwaitingPoseSwarm; AwaitingMap; Ready] ->
  uuid (st (fst (main_step i n))) <> EmptyString.
Proof.
  intros Hph. unfold main_step. rewrite Hph.
  destruct i as [queue| |]; simpl.
  - destruct (init_uuid_cases (spinOnce queue (st n))) as [[_ ->]|[Hu ->]]; simpl.
    + intros [H|[H|[H|[]]]]; discriminate.
    + intros _. now rewrite init_position_uuid.
  - rewrite Hph. intros [H|[H|[H|[]]]]; discriminate.
  - intros [H|[H|[H|[]]]]; discriminate.
Qed.

Lemma main_run_snoc server inputs i :
  main_run server (inputs ++ [i]) = fst (main_step i (main_run server inputs)).
Proof. unfold main_run. now rewrite fold_left_app. Qed.

Lemma main_start_identity server :
  main_start server = {| phase := AwaitingIdentity; st := main_init server |}.
Proof. reflexivity. Qed.

Lemma main_run_staged server inputs : staged (main_run server inputs).
Proof.
  induction inputs as [|i inputs IH] using rev_ind.
  - unfold main_run. simpl. apply init_uuid_staged.
  - rewrite main_run_snoc. now apply main_step_staged.
Qed.

Lemma main_run_keeps server inputs :
  keeps (main_init server) (st (main_run server inputs)).
Proof.
  induction inputs as [|i inputs IH] using rev_ind.
  - unfold main_run. simpl. apply keeps_refl.
  - rewrite main_run_snoc. eapply keeps_trans; [exact IH|apply main_step_keeps].
Qed.

Lemma main_step_stopped i n :
  phase n = Stopped -> phase (fst (main_step i n)) = Stopped.
Proof. intros Hph. unfold main_step. rewrite Hph. exact Hph. Qed.

(** Past the first loop, the identity was not empty at some point. *)
Lemma main_run_identity server inputs :
  In (phase (main_run server inputs)) [AwaitingPoseSwarm; AwaitingMap; Ready] ->
  exists k, (k <= List.length inputs)%nat /\
            uuid (st (main_run server (firstn k inputs))) <> EmptyString.
Proof.
  induction inputs as [|i inputs IH] using rev_ind.
  - unfold main_run. simpl. intros [H|[H|[H|[]]]]; discriminate.
  - rewrite main_run_snoc. intros Hin.
    destruct (phase (main_run server inputs)) eqn:Hph.
    + exists (List.length (inputs ++ [i])). split; [lia|].
      rewrite firstn_all, main_run_snoc.
      now apply main_step_leaves_identity.
    + destruct IH as (k & Hk & Hu); [simpl; auto|].
      exists k. split; [rewrite length_app; lia|].
      rewrite firstn_app. replace (k - List.length inputs)%nat with 0%nat by lia.
      simpl. now rewrite app_nil_r.
    + destruct IH as (k & Hk & Hu); [simpl; auto|].
      exists k. split; [rewrite length_app; lia|].
      rewrite firstn_app. replace (k - List.length inputs)%nat with 0%nat by lia.
      simpl. now rewrite app_nil_r.
    + destruct IH as (k & Hk & Hu); [simpl; auto|].
      exists k. split; [rewrite length_app; lia|].
      rewrite firstn_app. replace (k - List.length inputs)%nat with 0%nat by lia.
      simpl. now rewrite app_nil_r.
    + rewrite (main_step_stopped i _ Hph) in Hin.
      destruct Hin as [H|[H|[H|[]]]]; discriminate.
Qed.

(** C7: [main] starts in the loop that waits for the identity; a request
    is answered only in the phase [Ready]; the phases are passed in the
    order AwaitingIdentity, AwaitingPoseSwarm, AwaitingMap, Ready and never
    backwards; a node past the first loop had a non-empty identity at
    some earlier point, a node past the second has [pose_valid] and
    [swarm_valid] set, and a node that is [Ready] has [map_valid] set as
    well. *)
Theorem service_only_when_ready (server : Parameters) (inputs : list Input) :
  let n := main_run server inputs in
  phase (main_start server) = AwaitingIdentity /\
  (forall i res, snd (main_step i n) = Some res -> phase n = Ready /\ i = Request) /\
  (forall i, (phase_rank (phase n) <= phase_rank (phase (fst (main_step i n))))%nat) /\
  (In (phase n) [AwaitingPoseSwarm; AwaitingMap; Ready] ->
   exists k, (k <= List.length inputs)%nat /\
             uuid (st (main_run server (firstn k inputs))) <> EmptyString) /\
  (In (phase n) [AwaitingMap; Ready] ->
   pose_valid (st n) = true /\ swarm_valid (st n) = true) /\
  (phase n = Ready -> map_valid (st n) = true).
Proof.
  intros n. subst n.
  split; [reflexivity|]. split; [intros i res; apply main_step_response|].
  split; [intros i; apply main_step_rank|].
  split; [apply main_run_identity|].
  destruct (main_run_staged server inputs) as [Hmap Hready].
  split.
  - intros [H|[H|[]]]; symmetry in H; [now apply Hmap|].
    destruct (Hready H) as (Hp & Hs & _). now split.
  - intros H. now destruct (Hready H) as (_ & _ & Hm).
Qed.

Lemma init_map_ready s :
  phase (init_map s) = Ready -> st (init_map s) = configure s.
Proof. destruct (init_map_cases s) as [[_ ->]|[_ ->]]; [discriminate|reflexivity]. Qed.

Lemma init_position_ready s :
  phase (init_position s) = Ready -> st (init_position s) = configure s.
Proof.
  destruct (init_position_cases s) as [->|(_ & _ & ->)];
    [discriminate|apply init_map_ready].
Qed.

Lemma init_uuid_ready s :
  phase (init_uuid s) = Ready -> st (init_uuid s) = configure s.
Proof.
  destruct (init_uuid_cases s) as [[_ ->]|[_ ->]];
    [discriminate|apply init_position_ready].
Qed.

(** C6, as the code has it: [main] rejects no parameter.  It starts
    waiting for the identity whatever the parameter server holds; the
    timeout is the value of the server (5.0 when there is none), of any
    sign, and stays that value for the whole run; the node gets to serve
    as soon as identity, pose, swarm and map have arrived; and the
    optimiser is set up with the constants 1, 0.01, 1e-4 and 30 of the
    source, which no parameter replaces. *)
Theorem main_accepts_parameters (server : Parameters) (inputs : list Input) :
  main_start server = {| phase := AwaitingIdentity; st := main_init server |} /\
  swarm_timeout (st (main_run server inputs)) =
    param (swarm_timeout_param server) 5%float /\
  (forall id msg_pose msg_map now,
     id <> EmptyString ->
     phase (main_run server
              [Spin [on_uuid id; on_pose msg_pose true; on_swarm [] now;
                     on_map msg_map]]) = Ready) /\
  (forall i n,
     phase n <> Ready -> phase (fst (main_step i n)) = Ready ->
     division (st (fst (main_step i n))) =
       setup 1 0.01%float 1e-4%float 30 (division (st n))).
Proof.
  split; [reflexivity|]. split; [|split].
  - now destruct (main_run_keeps server inputs) as [-> _].
  - intros id msg_pose msg_map now Hid.
    unfold main_run, main_step. simpl. unfold init_uuid. simpl.
    apply String.eqb_neq in Hid. now rewrite Hid.
  - intros i n Hn. unfold main_step.
    destruct (phase n) eqn:Hph, i as [queue| |]; cbn [fst phase];
      try discriminate; try (now rewrite Hph); try contradiction.
    + intros H. rewrite (init_uuid_ready _ H). simpl.
      now rewrite spinOnce_division.
    + intros H. rewrite (init_position_ready _ H). simpl.
      now rewrite spinOnce_division.
    + intros H. rewrite (init_map_ready _ H). simpl.
      now rewrite spinOnce_division.
Qed.

(** The registry stays a map: its keys are in order after every
    callback, and so they are whenever the second loop starts. *)
Lemma update_positions_wf now positions :
  forall i s, wf (swarm_pose s) -> wf (swarm_pose (update_positions now i positions s)).
Proof.
  induction positions as [|cps rest IH]; intros i s Hwf; simpl; [exact Hwf|].
  apply IH. unfold update_cps.
  destruct (find (node (swarmio cps)) (swarm_pose s)); simpl.
  - now apply wf_assign.
  - now apply wf_emplace.
Qed.

Lemma remove_old_wf now todo :
  forall i s, wf (swarm_pose s) -> wf (swarm_pose (remove_old now i todo s)).
Proof.
  induction todo as [|cps rest IH]; intros i s Hwf; simpl; [exact Hwf|].
  destruct (timed_out (swarm_timeout s) (now i) cps); apply IH; [|exact Hwf].
  simpl. now apply wf_erase.
Qed.

Lemma call_wf cb s : wf (swarm_pose s) -> wf (swarm_pose (call cb s)).
Proof.
  intros Hwf. destruct cb as [msg|msg v|msg now|msg]; simpl; try exact Hwf.
  - unfold pose_callback. now destruct v.
  - unfold swarm_callback. simpl. apply remove_old_wf.
    now apply update_positions_wf.
Qed.

(* ------------------------------------------------------------------ *)
(** * Further properties *)

(** ** The first loop of swarm_callback as a whole *)

(** The ids that a message reports. *)
Definition ids (msg : list Position) : list string :=
  map (fun cps => node (swarmio cps)) msg.

(** Whether the id of a report has no record in the registry of [s]. *)
Definition unknown (s : State) (cps : Position) : bool :=
  match find (node (swarmio cps)) (swarm_pose s) with
  | None => true
  | Some _ => false
  end.

Lemma update_cps_find_same now cps s :
  exists ps,
    find (node (swarmio cps)) (swarm_pose (update_cps now cps s)) = Some ps /\
    stamp (ps_header ps) = now /\ ps_pose ps = pos_pose cps.
Proof.
  unfold update_cps.
  destruct (find (node (swarmio cps)) (swarm_pose s)) as [old|] eqn:Hf; simpl.
  - rewrite find_assign_same, Hf. simpl. eexists. split; [reflexivity|]. split; reflexivity.
  - rewrite find_emplace_new by exact Hf. eexists. split; [reflexivity|]. split; reflexivity.
Qed.

Lemma update_cps_find_other now cps s k :
  k <> node (swarmio cps) ->
  find k (swarm_pose (update_cps now cps s)) = find k (swarm_pose s).
Proof.
  intros Hk. unfold update_cps.
  destruct (find (node (swarmio cps)) (swarm_pose s)); simpl.
  - now apply find_assign_other.
  - now apply find_emplace_other.
Qed.

Lemma update_cps_reconfigure now cps s :
  reconfigure (update_cps now cps s) = reconfigure s || unknown s cps.
Proof.
  unfold update_cps, unknown.
  destruct (find (node (swarmio cps)) (swarm_pose s)); simpl.
  - now rewrite orb_false_r.
  - now rewrite orb_true_r.
Qed.

Lemma update_cps_unknown now cps s c :
  unknown s cps = false -> unknown (update_cps now cps s) c = unknown s c.
Proof.
  unfold unknown at 1. intros Hknown. unfold unknown.
  destruct (string_dec (node (swarmio c)) (node (swarmio cps))) as [E|E].
  - rewrite E. destruct (update_cps_find_same now cps s) as (ps & -> & _).
    now destruct (find (node (swarmio cps)) (swarm_pose s)).
  - now rewrite update_cps_find_other.
Qed.

Lemma existsb_same {A : Type} (f g : A -> bool) l :
  (forall a, f a = g a) -> existsb f l = existsb g l.
Proof.
  intros H. induction l as [|a l IH]; simpl; [reflexivity|]. now rewrite H, IH.
Qed.

Lemma update_positions_reconfigure now msg :
  forall i s,
    reconfigure (update_positions now i msg s) =
      reconfigure s || existsb (unknown s) msg.
Proof.
  induction msg as [|cps rest IH]; intros i s; simpl.
  - now rewrite orb_false_r.
  - rewrite IH, update_cps_reconfigure.
    destruct (unknown s cps) eqn:Hu.
    + now rewrite !orb_true_r.
    + rewrite orb_false_r. simpl. f_equal.
      apply existsb_same. intros c. now apply update_cps_unknown.
Qed.

Lemma update_positions_other now msg :
  forall i s k,
    ~ In k (ids msg) ->
    find k (swarm_pose (update_positions now i msg s)) = find k (swarm_pose s).
Proof.
  induction msg as [|cps rest IH]; intros i s k Hk; simpl; [reflexivity|].
  simpl in Hk. rewrite IH by tauto.
  apply update_cps_find_other. intros E. apply Hk. left. now symmetry.
Qed.

Lemma update_positions_member now msg :
  forall i s k,
    find k (swarm_pose (update_positions now i msg s)) <> None <->
    find k (swarm_pose s) <> None \/ In k (ids msg).
Proof.
  induction msg as [|cps rest IH]; intros i s k; simpl; [tauto|].
  rewrite IH.
  destruct (string_dec k (node (swarmio cps))) as [E|E].
  - subst k. destruct (update_cps_find_same (now i) cps s) as (ps & -> & _).
    split; [intros _; right; left; reflexivity|intros _; left; discriminate].
  - rewrite update_cps_find_other by exact E.
    split; [tauto|]. intros [H|[H|H]]; [tauto| |tauto].
    exfalso. apply E. now symmetry.
Qed.

Lemma update_positions_app now a b :
  forall i s,
    update_positions now i (a ++ b) s =
      update_positions now (i + List.length a) b (update_positions now i a s).
Proof.
  induction a as [|cps a IH]; intros i s; simpl.
  - now rewrite Nat.add_0_r.
  - rewrite IH. now rewrite Nat.add_succ_r.
Qed.

(** X6: after the first loop of [swarm_callback] the registry holds the
    ids it held before and the ids of the message, and no other; and
    [reconfigure] is raised exactly when the message reports an id that
    the registry did not hold, so a message that only refreshes known
    members does not ask for a new division. *)
Theorem update_positions_members (now : nat -> Time) (i : nat)
    (msg : list Position) (s : State) :
  let s' := update_positions now i msg s in
  (forall k, find k (swarm_pose s') <> None <->
             find k (swarm_pose s) <> None \/ In k (ids msg)) /\
  reconfigure s' = reconfigure s || existsb (unknown s) msg.
Proof.
  intros s'. subst s'. split.
  - intros k. apply update_positions_member.
  - apply update_positions_reconfigure.
Qed.

(** X7: when a message reports an id several times, the record holds the
    pose of the last of these reports, stamped with the clock reading of
    that report. *)
Theorem update_positions_last (now : nat -> Time) (i : nat)
    (pre post : list Position) (cps : Position) (s : State) :
  ~ In (node (swarmio cps)) (ids post) ->
  exists ps,
    find (node (swarmio cps))
      (swarm_pose (update_positions now i (pre ++ cps :: post) s)) = Some ps /\
    ps_pose ps = pos_pose cps /\
    stamp (ps_header ps) = now (i + List.length pre)%nat.
Proof.
  intros Hpost. rewrite update_positions_app. simpl.
  rewrite update_positions_other by exact Hpost.
  destruct (update_cps_find_same (now (i + List.length pre)%nat) cps
              (update_positions now i pre s)) as (ps & Hf & Hs & Hp).
  exists ps. now repeat split.
Qed.

(** ** swarm_callback as a whole *)

Lemma find_filter {V : Type} (p : string * V -> bool) (m : smap V) k :
  NoDup (keys m) ->
  find k (filter p m) =
    match find k m with
    | Some v => if p (k, v) then Some v else None
    | None => None
    end.
Proof.
  induction m as [|[k' v'] m IH]; intros Hnd; simpl; [reflexivity|].
  simpl in Hnd. inversion Hnd as [|? ? Hnotin Hnd']; subst.
  destruct (String.eqb k k') eqn:He.
  - apply String.eqb_eq in He. subst k'.
    destruct (p (k, v')) eqn:Hp; simpl.
    + now rewrite String.eqb_refl.
    + rewrite IH by exact Hnd'.
      apply find_none_notin in Hnotin. now rewrite Hnotin.
  - destruct (p (k', v')); simpl; [rewrite He|]; now apply IH.
Qed.

Lemma filter_length_lt {A : Type} (p : A -> bool) l a :
  In a l -> p a = false -> (List.length (filter p l) < List.length l)%nat.
Proof.
  assert (Hle : forall l', (List.length (filter p l') <= List.length l')%nat).
  { induction l' as [|b l' IH]; simpl; [lia|]. destruct (p b); simpl; lia. }
  induction l as [|b l IH]; intros Hin Hp; [contradiction|].
  simpl. destruct Hin as [->|Hin].
  - rewrite Hp. specialize (Hle l). lia.
  - specialize (IH Hin Hp). destruct (p b); simpl; lia.
Qed.

Lemma update_positions_stamp now t msg :
  (forall j, now j = t) ->
  forall i s id,
    In id (ids msg) ->
    exists ps,
      find id (swarm_pose (update_positions now i msg s)) = Some ps /\
      stamp (ps_header ps) = t.
Proof.
  intros Hnow. induction msg as [|cps rest IH]; intros i s id Hin; [contradiction|].
  simpl. destruct (in_dec string_dec id (ids rest)) as [Hr|Hr].
  - now apply IH.
  - destruct Hin as [E|Hin]; [|contradiction]. subst id.
    rewrite update_positions_other by exact Hr.
    destruct (update_cps_find_same (now i) cps s) as (ps & Hf & Hs & _).
    exists ps. split; [exact Hf|]. now rewrite Hs.
Qed.

(** X8: with the clock standing at [t] during one [swarm_callback], an id
    that the message reports is in the registry afterwards, stamped [t],
    unless [t + timeout < t] holds (a negative timeout): then the record
    is removed in the same callback and [reconfigure] is set. *)
Theorem swarm_callback_reported (msg : list Position) (now : nat -> Time)
    (t : Time) (s : State) (id : string) :
  wf (swarm_pose s) ->
  (forall j, now j = t) ->
  In id (ids msg) ->
  let s' := swarm_callback msg now s in
  if Time_ltb (Time_add t (Duration_of (swarm_timeout s))) t
  then find id (swarm_pose s') = None /\ reconfigure s' = true
  else exists ps, find id (swarm_pose s') = Some ps /\ stamp (ps_header ps) = t.
Proof.
  intros Hwf Hnow Hin s'. subst s'. unfold swarm_callback. cbn [swarm_pose reconfigure set_swarm_valid].
  set (s1 := update_positions now 0 msg s).
  assert (Hwf1 : wf (swarm_pose s1)) by now apply update_positions_wf.
  assert (Ht1 : swarm_timeout s1 = swarm_timeout s)
    by apply (update_positions_frame now msg 0%nat s).
  destruct (update_positions_stamp now t msg Hnow 0%nat s id Hin) as (ps & Hf & Hs).
  fold s1 in Hf.
  destruct (remove_old_from now (swarm_pose s1) [] (List.length msg) s1 eq_refl Hwf1)
    as [Hp Hr].
  simpl in Hp.
  rewrite (kept_steady_clock _ now t _ Hnow) in Hp, Hr.
  rewrite Hp, Hr, Ht1.
  rewrite find_filter by now apply wf_nodup.
  rewrite Hf. unfold timed_out at 1 3. simpl. rewrite Hs.
  destruct (Time_ltb (Time_add t (Duration_of (swarm_timeout s))) t) eqn:Hb; simpl.
  - split; [reflexivity|].
    assert (Hlt : (List.length
                     (filter (fun cps => negb (timed_out (swarm_timeout s) t cps))
                        (swarm_pose s1)) < List.length (swarm_pose s1))%nat).
    { apply (filter_length_lt _ _ (id, ps)); [now apply find_some_in|].
      unfold timed_out. simpl. now rewrite Hs, Hb. }
    apply Nat.ltb_lt in Hlt. rewrite Hlt. apply orb_true_r.
  - exists ps. now split.
Qed.

(** ** The service *)

Lemma divide_area_frame s :
  uuid (divide_area s) = uuid s /\ pose (divide_area s) = pose s /\
  pose_valid (divide_area s) = pose_valid s /\
  swarm_pose (divide_area s) = swarm_pose s /\
  swarm_valid (divide_area s) = swarm_valid s /\
  swarm_timeout (divide_area s) = swarm_timeout s /\
  gridmap (divide_area s) = gridmap s /\
  map_valid (divide_area s) = map_valid s /\
  visualize (divide_area s) = visualize s /\
  reconfigure (divide_area s) = false.
Proof.
  unfold divide_area. simpl. destruct (visualize s) eqn:Hv; simpl;
    rewrite ?Hv; repeat split.
Qed.

(** X1: a second request right after a first one changes nothing and
    returns the same map: the division computed for the first is kept
    and read again. *)
Theorem get_area_twice (s : State) :
  get_area (fst (fst (get_area s))) =
    (fst (fst (get_area s)), snd (fst (get_area s)), true).
Proof.
  unfold get_area. destruct (reconfigure s) eqn:Hr; cbn [fst snd].
  - destruct (divide_area_frame s) as (Hu & _ & _ & _ & _ & _ & Hg & _ & _ & ->).
    reflexivity.
  - rewrite Hr. reflexivity.
Qed.

Lemma get_area_fields (s : State) :
  uuid (fst (fst (get_area s))) = uuid s /\
  pose (fst (fst (get_area s))) = pose s /\
  pose_valid (fst (fst (get_area s))) = pose_valid s /\
  swarm_pose (fst (fst (get_area s))) = swarm_pose s /\
  swarm_valid (fst (fst (get_area s))) = swarm_valid s /\
  swarm_timeout (fst (fst (get_area s))) = swarm_timeout s /\
  gridmap (fst (fst (get_area s))) = gridmap s /\
  map_valid (fst (fst (get_area s))) = map_valid s /\
  visualize (fst (fst (get_area s))) = visualize s.
Proof.
  unfold get_area. cbn [fst]. destruct (reconfigure s).
  - destruct (divide_area_frame s) as (? & ? & ? & ? & ? & ? & ? & ? & ? & _).
    repeat split; assumption.
  - repeat split.
Qed.

(** X2: a request never touches the registry, the map, the own pose, the
    identity, the validity flags, the timeout or the choice to
    visualise. *)
Theorem get_area_frame (s : State) :
  uuid (fst (fst (get_area s))) = uuid s /\
  pose (fst (fst (get_area s))) = pose s /\
  pose_valid (fst (fst (get_area s))) = pose_valid s /\
  swarm_pose (fst (fst (get_area s))) = swarm_pose s /\
  swarm_valid (fst (fst (get_area s))) = swarm_valid s /\
  swarm_timeout (fst (fst (get_area s))) = swarm_timeout s /\
  gridmap (fst (fst (get_area s))) = gridmap s /\
  map_valid (fst (fst (get_area s))) = map_valid s /\
  visualize (fst (fst (get_area s))) = visualize s.
Proof. exact (get_area_fields s). Qed.

Lemma get_area_publishes (s : State) :
  published (fst (fst (get_area s))) =
    if reconfigure s && visualize s
    then snd (fst (get_area s)) :: published s
    else published s.
Proof.
  unfold get_area. cbn [fst snd]. destruct (reconfigure s); simpl; [|reflexivity].
  unfold divide_area. simpl. destruct (visualize s) eqn:Hv; simpl; rewrite ?Hv; reflexivity.
Qed.

(** X3: a request publishes on the visualisation topic exactly when it
    recomputes the division and [visualize] is set, and what it
    publishes then is the map it returns. *)
Theorem get_area_published (s : State) :
  published (fst (fst (get_area s))) =
    if reconfigure s && visualize s
    then snd (fst (get_area s)) :: published s
    else published s.
Proof. exact (get_area_publishes s). Qed.

(** ** The callbacks that do not ask for a new division *)

(** [unflagged s s']: going from [s] to [s'] neither asked for a new
    division nor changed the one there is, nor the registry; so a
    request that finds [reconfigure] clear answers from the division of
    [s], read with the map and the identity of [s']. *)
Definition unflagged (s s' : State) : Prop :=
  reconfigure s' = reconfigure s /\
  division s' = division s /\
  swarm_pose s' = swarm_pose s /\
  (reconfigure s = false ->
   get_area s' = (s', get_grid (division s) (gridmap s') (uuid s'), true)).

(** X10: a new map, a new own pose and a new identity leave [reconfigure]
    as it is: with the flag clear, the next request is answered from the
    division computed before they arrived. *)
Theorem callbacks_unflagged (id : string) (p : PoseStamped) (v : bool)
    (m : OccupancyGrid) (s : State) :
  unflagged s (uuid_callback id s) /\
  unflagged s (pose_callback p v s) /\
  unflagged s (map_callback m s).
Proof.
  unfold unflagged, get_area, uuid_callback, pose_callback, map_callback.
  split; [|split].
  - simpl. repeat split. intros ->. reflexivity.
  - destruct v; simpl; repeat split; intros ->; reflexivity.
  - simpl. repeat split. intros ->. reflexivity.
Qed.

(** ** What no callback undoes *)

Lemma bool_le_intro (a b : bool) : (a = true -> b = true) -> Bool.le a b.
Proof. destruct a; simpl; auto. Qed.

Lemma remove_old_raise now todo :
  forall i s, reconfigure s = true -> reconfigure (remove_old now i todo s) = true.
Proof.
  induction todo as [|cps rest IH]; intros i s Hr; simpl; [exact Hr|].
  destruct (timed_out (swarm_timeout s) (now i) cps); apply IH; [reflexivity|exact Hr].
Qed.

Lemma call_raise cb s : reconfigure s = true -> reconfigure (call cb s) = true.
Proof.
  intros Hr. destruct cb as [msg|msg v|msg now|msg]; simpl; try exact Hr.
  - unfold pose_callback. now destruct v.
  - unfold swarm_callback. simpl. apply remove_old_raise.
    rewrite update_positions_reconfigure, Hr. reflexivity.
Qed.

Lemma spinOnce_raise queue :
  forall s, reconfigure s = true -> reconfigure (spinOnce queue s) = true.
Proof.
  unfold spinOnce. induction queue as [|cb queue IH]; intros s Hr; simpl; [exact Hr|].
  apply IH. now apply call_raise.
Qed.

(** X11: no callback clears [reconfigure], and none lowers a validity
    flag: a pending request for a new division survives any number of
    messages, and so do [pose_valid], [swarm_valid] and [map_valid]. *)
Theorem spinOnce_monotone (queue : list Callback) (s : State) :
  Bool.le (reconfigure s) (reconfigure (spinOnce queue s)) /\
  Bool.le (pose_valid s) (pose_valid (spinOnce queue s)) /\
  Bool.le (swarm_valid s) (swarm_valid (spinOnce queue s)) /\
  Bool.le (map_valid s) (map_valid (spinOnce queue s)).
Proof.
  destruct (spinOnce_keeps queue s) as (_ & P & S & M).
  repeat split; apply bool_le_intro; auto. apply spinOnce_raise.
Qed.

(** ** What holds along every run of main *)

Lemma init_map_state s : st (init_map s) = s \/ st (init_map s) = configure s.
Proof. destruct (init_map_cases s) as [[_ ->]|[_ ->]]; auto. Qed.

Lemma init_position_state s :
  st (init_position s) = s \/ st (init_position s) = configure s.
Proof.
  destruct (init_position_cases s) as [->|(_ & _ & ->)]; [auto|apply init_map_state].
Qed.

Lemma init_uuid_state s : st (init_uuid s) = s \/ st (init_uuid s) = configure s.
Proof.
  destruct (init_uuid_cases s) as [[_ ->]|[_ ->]]; [auto|apply init_position_state].
Qed.

Lemma spinOnce_wf queue :
  forall s, wf (swarm_pose s) -> wf (swarm_pose (spinOnce queue s)).
Proof.
  unfold spinOnce. induction queue as [|cb queue IH]; intros s Hwf; simpl; [exact Hwf|].
  apply IH. now apply call_wf.
Qed.

Lemma main_step_wf i n :
  wf (swarm_pose (st n)) -> wf (swarm_pose (st (fst (main_step i n)))).
Proof.
  intros Hwf. unfold main_step.
  destruct (phase n), i as [queue| |]; cbn [fst st]; try exact Hwf.
  - destruct (init_uuid_state (spinOnce queue (st n))) as [-> | ->];
      simpl; now apply spinOnce_wf.
  - destruct (init_position_state (spinOnce queue (st n))) as [-> | ->];
      simpl; now apply spinOnce_wf.
  - destruct (init_map_state (spinOnce queue (st n))) as [-> | ->];
      simpl; now apply spinOnce_wf.
  - now apply spinOnce_wf.
  - pose proof (get_area_fields (st n)) as (_ & _ & _ & Hp & _).
    destruct (get_area (st n)) as [[s res] b]. cbn [fst st] in *. now rewrite Hp.
Qed.

(** X12: whatever [main] receives, the registry holds its records in the
    order of their ids and never two records under one id. *)
Theorem main_run_registry (server : Parameters) (inputs : list Input) :
  StronglySorted string_lt (keys (swarm_pose (st (main_run server inputs)))) /\
  NoDup (keys (swarm_pose (st (main_run server inputs)))).
Proof.
  assert (Hwf : wf (swarm_pose (st (main_run server inputs)))).
  { induction inputs as [|i inputs IH] using rev_ind.
    - unfold main_run. simpl. apply wf_nil.
    - rewrite main_run_snoc. now apply main_step_wf. }
  split; [exact Hwf|now apply wf_nodup].
Qed.

(** The division is the result of [divide] whenever [reconfigure] is
    clear. *)
Definition divided (s : State) : Prop :=
  reconfigure s = false -> exists d, division s = divide d.

(** Before the service starts [reconfigure] is still set, and while it
    runs the division is a divided one. *)
Definition fresh (n : Node) : Prop :=
  ((phase_rank (phase n) <= 2)%nat -> reconfigure (st n) = true) /\
  (phase n = Ready -> divided (st n)).

Lemma init_uuid_fresh s : reconfigure s = true -> fresh (init_uuid s).
Proof.
  intros Hr. unfold fresh, divided.
  destruct (init_uuid_state s) as [E|E]; rewrite E; simpl; rewrite Hr;
    split; intros; try reflexivity; discriminate.
Qed.

Lemma init_position_fresh s : reconfigure s = true -> fresh (init_position s).
Proof.
  intros Hr. unfold fresh, divided.
  destruct (init_position_state s) as [E|E]; rewrite E; simpl; rewrite Hr;
    split; intros; try reflexivity; discriminate.
Qed.

Lemma init_map_fresh s : reconfigure s = true -> fresh (init_map s).
Proof.
  intros Hr. unfold fresh, divided.
  destruct (init_map_state s) as [E|E]; rewrite E; simpl; rewrite Hr;
    split; intros; try reflexivity; discriminate.
Qed.

Lemma main_step_fresh i n : fresh n -> fresh (fst (main_step i n)).
Proof.
  intros Hn. pose proof Hn as [Hwait Hready]. unfold main_step.
  destruct (phase n) eqn:Hph, i as [queue| |]; cbn [fst];
    try exact Hn;
    try (unfold fresh; cbn [phase st phase_rank]; split; [lia|discriminate]).
  - apply init_uuid_fresh, spinOnce_raise, Hwait. simpl. lia.
  - apply init_position_fresh, spinOnce_raise, Hwait. simpl. lia.
  - apply init_map_fresh, spinOnce_raise, Hwait. simpl. lia.
  - unfold fresh. cbn [phase st phase_rank]. split; [lia|]. intros _ Hr.
    rewrite spinOnce_division. apply Hready; [reflexivity|].
    destruct (reconfigure (st n)) eqn:Hr0; [|reflexivity].
    rewrite (spinOnce_raise queue (st n) Hr0) in Hr. discriminate.
  - unfold fresh, divided, get_area.
    destruct (reconfigure (st n)) eqn:Hr0; simpl.
    + split; [lia|]. intros _ _.
      destruct (visualize (st n)); simpl; eexists; reflexivity.
    + split; [lia|]. intros _ _. now apply Hready.
Qed.

Lemma main_run_fresh server inputs : fresh (main_run server inputs).
Proof.
  induction inputs as [|i inputs IH] using rev_ind.
  - unfold main_run. simpl. now apply init_uuid_fresh.
  - rewrite main_run_snoc. now apply main_step_fresh.
Qed.

(** X4: every map that the service returns is read from a division on
    which [divide] has run: the first request always finds
    [reconfigure] set, and each later one finds either the flag set or
    the division of an earlier request. *)
Theorem response_from_division (server : Parameters) (inputs : list Input)
    (i : Input) (res : OccupancyGrid) :
  snd (main_step i (main_run server inputs)) = Some res ->
  exists d,
    division (st (fst (main_step i (main_run server inputs)))) = divide d /\
    res = get_grid (divide d)
            (gridmap (st (main_run server inputs)))
            (uuid (st (main_run server inputs))).
Proof.
  intros Hres. destruct (main_step_response _ _ _ Hres) as [Hph ->].
  destruct (main_run_fresh server inputs) as [_ Hready].
  specialize (Hready Hph). revert Hres. unfold main_step. rewrite Hph.
  unfold get_area. destruct (reconfigure (st (main_run server inputs))) eqn:Hr.
  - destruct (divide_area_frame (st (main_run server inputs)))
      as (Hu & _ & _ & _ & _ & _ & Hg & _).
    cbn [fst snd st]. rewrite Hu, Hg. intros [= <-].
    unfold divide_area. simpl.
    destruct (visualize (st (main_run server inputs))); simpl;
      eexists; split; reflexivity.
  - cbn [fst snd st]. intros [= <-].
    destruct (Hready Hr) as [d Hd]. exists d. now rewrite Hd.
Qed.

Lemma call_unpublished cb s :
  visualize (call cb s) = visualize s /\ published (call cb s) = published s.
Proof.
  destruct cb as [msg|msg v|msg now|msg]; simpl; try (split; reflexivity).
  - unfold pose_callback. destruct v; split; reflexivity.
  - split; apply swarm_callback_frame.
Qed.

Lemma spinOnce_unpublished queue :
  forall s, visualize (spinOnce queue s) = visualize s /\
            published (spinOnce queue s) = published s.
Proof.
  unfold spinOnce. induction queue as [|cb queue IH]; intros s; simpl; [split; reflexivity|].
  destruct (IH (call cb s)) as [-> ->]. apply call_unpublished.
Qed.

Lemma main_step_unpublished i n :
  visualize (st n) = false -> published (st n) = [] ->
  visualize (st (fst (main_step i n))) = false /\
  published (st (fst (main_step i n))) = [].
Proof.
  intros Hv Hp. unfold main_step.
  destruct (phase n), i as [queue| |]; cbn [fst st]; try (split; assumption);
    try (destruct (spinOnce_unpublished queue (st n)) as [Ev Ep]).
  - destruct (init_uuid_state (spinOnce queue (st n))) as [-> | ->];
      simpl; rewrite Ev, Ep; now split.
  - destruct (init_position_state (spinOnce queue (st n))) as [-> | ->];
      simpl; rewrite Ev, Ep; now split.
  - destruct (init_map_state (spinOnce queue (st n))) as [-> | ->];
      simpl; rewrite Ev, Ep; now split.
  - rewrite Ev, Ep. now split.
  - pose proof (get_area_publishes (st n)) as Hpub.
    pose proof (get_area_fields (st n)) as (_ & _ & _ & _ & _ & _ & _ & _ & Hvis).
    destruct (get_area (st n)) as [[s res] b]. cbn [fst snd st] in *.
    rewrite Hv, andb_false_r in Hpub. rewrite Hvis, Hpub. now split.
Qed.

(** X5: when the parameter [visualize] is false or not set, the node
    never publishes on the visualisation topic, whatever it receives and
    however often the division is computed. *)
Theorem main_run_unpublished (server : Parameters) (inputs : list Input) :
  param (visualize_param server) false = false ->
  published (st (main_run server inputs)) = [].
Proof.
  intros Hv.
  assert (H : visualize (st (main_run server inputs)) = false /\
              published (st (main_run server inputs)) = []).
  { induction inputs as [|i inputs IH] using rev_ind.
    - unfold main_run. simpl. now split.
    - rewrite main_run_snoc. destruct IH as [Iv Ip]. now apply main_step_unpublished. }
  apply H.
Qed.

(** ** The ids of the swarm grid *)

(** X13: the swarm grid handed to the optimiser has an entry for every id
    of the registry and for the own id, and for no other id. *)
Theorem swarm_grid_ids (s : State) (k : string) :
  In k (keys (swarm_grid s)) <-> In k (keys (swarm_pose s)) \/ k = uuid s.
Proof.
  assert (Hin : forall (V : Type) (m : smap V), In k (keys m) <-> find k m <> None).
  { intros V m. pose proof (find_none_notin k m) as H.
    destruct (find k m); split; intros H'; try discriminate.
    - destruct (in_dec string_dec k (keys m)) as [Hi|Hi]; [exact Hi|].
      apply H in Hi. discriminate.
    - exfalso. apply (proj1 H eq_refl H').
    - exfalso. now apply H'. }
  rewrite !Hin, swarm_grid_find.
  destruct (find k (swarm_pose s)) as [ps|].
  - split; [intros _; left; discriminate|intros _; discriminate].
  - destruct (String.eqb k (uuid s)) eqn:He.
    + apply String.eqb_eq in He. split; [now right|discriminate].
    + apply String.eqb_neq in He. split; [intros H; now elim H|].
      intros [H|H]; [now elim H|contradiction].
Qed.

(** X9: with the clock standing at [t] during one [swarm_callback], the
    record of an id that the message does not report is removed when
    [stamp + timeout < t] and is kept as it is otherwise; an id without a
    record stays without one.  This holds for the empty message too: it
    still prunes. *)
Theorem swarm_callback_unreported (msg : list Position) (now : nat -> Time)
    (t : Time) (s : State) (k : string) :
  wf (swarm_pose s) ->
  (forall j, now j = t) ->
  ~ In k (ids msg) ->
  find k (swarm_pose (swarm_callback msg now s)) =
    match find k (swarm_pose s) with
    | Some ps => if timed_out (swarm_timeout s) t (k, ps) then None else Some ps
    | None => None
    end.
Proof.
  intros Hwf Hnow Hk. unfold swarm_callback. cbn [swarm_pose set_swarm_valid].
  set (s1 := update_positions now 0 msg s).
  assert (Hwf1 : wf (swarm_pose s1)) by now apply update_positions_wf.
  assert (Ht1 : swarm_timeout s1 = swarm_timeout s)
    by apply (update_positions_frame now msg 0%nat s).
  destruct (remove_old_from now (swarm_pose s1) [] (List.length msg) s1 eq_refl Hwf1)
    as [Hp _].
  simpl in Hp. rewrite (kept_steady_clock _ now t _ Hnow) in Hp.
  rewrite Hp, Ht1. rewrite find_filter by now apply wf_nodup.
  unfold s1. rewrite update_positions_other by exact Hk.
  destruct (find k (swarm_pose s)) as [ps|]; [|reflexivity].
  now destruct (timed_out (swarm_timeout s) t (k, ps)).
Qed.

End Node.

(* ------------------------------------------------------------------ *)
(** * The node on concrete inputs *)

(** A clock that counts nanoseconds: a time and a duration are integers,
    and a duration of [d] seconds is the nearest number of nanoseconds
    (none for an infinite or undefined [d]). *)
Definition nanoseconds (d : double) : Z :=
  match Prim2SF d with
  | S754_finite s m e =>
      let n :=
        if 0 <=? e then Z.pos m * 10 ^ 9 * 2 ^ e
        else
          let num := Z.pos m * 10 ^ 9 in
          let den := 2 ^ (- e) in
          if den <=? 2 * (num mod den) then num / den + 1 else num / den in
      if s then - n else n
  | _ => 0
  end.

#[export] Instance ns_time : RosTime :=
  {| Time := Z;
     Duration := Z;
     Time_zero := 0;
     Duration_of := nanoseconds;
     Time_add := Z.add;
     Time_ltb := Z.ltb |}.

(** An optimiser that records the calls it receives, latest first, and
    whose [get_grid] answers with the map it is given. *)
Inductive Call :=
| call_setup (a : Z) (b c : double) (d : Z)
| call_initialize_map (w h : Z) (cells : list Z)
| call_initialize_cps (swarm_grid : smap (list Z))
| call_divide.

#[export] Instance recorder : AreaDivision (list Call) :=
  {| area_division_new := [];
     setup a b c d o := call_setup a b c d :: o;
     initialize_map w h cells o := call_initialize_map w h cells :: o;
     initialize_cps g o := call_initialize_cps g :: o;
     divide o := call_divide :: o;
     get_grid o g id := g |}.

Local Open Scope string_scope.

Definition pose_at (px py : double) : Pose :=
  {| position := {| x := px; y := py; z := 0%float |};
     orientation := {| qx := 0%float; qy := 0%float; qz := 0%float; qw := 1%float |} |}.

Arguments pose_at (px py)%_float.

Definition stamped (t : Z) (p : Pose) : PoseStamped :=
  {| ps_header := {| seq := 0; stamp := t; frame_id := "" |}; ps_pose := p |}.

Definition report (id : string) (p : Pose) : Position :=
  {| pos_header := Header_default;
     swarmio := {| name := "position"; node := id |};
     pos_pose := p |}.

(** A free map of ten by ten cells of one metre, its origin at (0, 0). *)
Definition map_10x10 : OccupancyGrid :=
  {| og_header := Header_default;
     info := {| map_load_time := 0; resolution := 1%float;
                width := 10; height := 10; origin := pose_at 0 0 |};
     data := repeat 0 100 |}.

Definition steady (t : Z) : nat -> Z := fun _ => t.

Definition no_parameters : Parameters :=
  {| loop_rate_param := None; queue_size_param := None;
     swarm_timeout_param := None; visualize_param := None |}.

(** What brings a node with identity [id] at [p] on [map_10x10] to serve,
    with the swarm message [msg] read at time [t]. *)
Definition startup (id : string) (p : Pose) (msg : list Position) (t : Z) : Input :=
  Spin [on_uuid id; on_pose (stamped t p) true; on_swarm msg (steady t);
        on_map map_10x10].

(** A node about to serve its first request, for the examples that start
    from a state. *)
Definition ready_state (id : string) (p : Pose) (registry : smap PoseStamped) : State :=
  {| uuid := id; pose := p; pose_valid := true;
     swarm_pose := registry; swarm_valid := true;
     swarm_timeout := 5%float; gridmap := map_10x10; map_valid := true;
     reconfigure := true; visualize := false;
     division := [call_setup 1 0.01%float 1e-4%float 30];
     published := [] |}.

(** ** Rounding *)

Example round_examples :
  round 2.5%float = 3%float /\ round (-2.5)%float = (-3)%float /\
  round 2.4%float = 2%float /\ round 0.49999999999999994%float = 0%float /\
  round (-0.3)%float = (-0)%float /\ round infinity = infinity /\
  int_of_double (round 7.5%float) = 8 /\ int_of_double (round (-7.5)%float) = -8 /\
  int_of_double (round 3e9%float) = INT_MIN /\ int_of_double nan = INT_MIN.
Proof. vm_compute. repeat split. Qed.

Example world_to_grid_example :
  world_to_grid (info map_10x10) (pose_at 2.5 6.49) = [3; 6] /\
  world_to_grid
    {| map_load_time := 0; resolution := 0.5%float; width := 10; height := 10;
       origin := pose_at (-1) 1 |} (pose_at 2.3 0.1) = [7; -2].
Proof. split; reflexivity. Qed.

(** ** Counterexamples and instances *)

(** C2: the record of "b" lies a hundred metres out on a map ten cells
    wide.  [get_area] succeeds, and the optimiser receives the column 100
    for it: no error, and no coordinate moved into the map. *)
Lemma far_pose_unchecked :
  let s := ready_state "a" (pose_at 2 2) [("b", stamped 0 (pose_at 100 3))] in
  find "b" (swarm_grid s) = Some [100; 3] /\
  (int_of_uint32 (width (info (gridmap s))) <=? 100)%Z = true /\
  snd (get_area s) = true /\
  division (fst (fst (get_area s))) =
    [ call_divide;
      call_initialize_cps [("a", [2; 2]); ("b", [100; 3])];
      call_initialize_map 10 10 (repeat 0 100);
      call_setup 1 0.01%float 1e-4%float 30 ].
Proof. cbv zeta. repeat split. Qed.

(** C3: a node that serves with the identity "a" receives a second
    message of the identity provider, and its identity is "b". *)
Lemma uuid_overwritten :
  let n := main_run no_parameters [startup "a" (pose_at 2 2) [] 0] in
  phase n = Ready /\ uuid (st n) = "a" /\
  phase (fst (main_step (Spin [on_uuid "b"]) n)) = Ready /\
  uuid (st (fst (main_step (Spin [on_uuid "b"]) n))) = "b".
Proof. cbv zeta. repeat split. Qed.

(** C6: with a timeout of -1 second on the parameter server the node
    starts, keeps the timeout, becomes ready and answers a request. *)
Lemma negative_timeout_served :
  let server :=
    {| loop_rate_param := None; queue_size_param := None;
       swarm_timeout_param := Some (-1)%float; visualize_param := None |} in
  let n := main_run server [startup "a" (pose_at 2 2) [] 0] in
  phase n = Ready /\
  swarm_timeout (st n) = (-1)%float /\
  PrimFloat.leb (swarm_timeout (st n)) 0%float = true /\
  snd (main_step Request n) = Some map_10x10.
Proof. cbv zeta. repeat split. Qed.

(** C10: the swarm message lists the node itself, "a", at (7, 7), while
    its own pose is (2, 2).  The entry of "a" in the swarm grid is the
    one of the registry. *)
Lemma own_entry_from_registry :
  let n :=
    main_run no_parameters
      [startup "a" (pose_at 2 2) [report "a" (pose_at 7 7)] 0] in
  phase n = Ready /\
  world_to_grid (info (gridmap (st n))) (pose (st n)) = [2; 2] /\
  swarm_grid (st n) = [("a", [7; 7])].
Proof. cbv zeta. repeat split. Qed.

(** Two records, one stamped at 0 s and one at 10 s, a timeout of 5 s
    and a clock at 7 s. *)
Definition two_records : State :=
  ready_state "a" (pose_at 2 2)
    [("b", stamped 0 (pose_at 1 1)); ("c", stamped (10 * 10 ^ 9) (pose_at 8 8))].

Lemma two_records_wf : wf (swarm_pose two_records).
Proof.
  unfold wf. simpl. repeat constructor.
Defined.

Example remove_old_example :
  swarm_pose (remove_old (steady (7 * 10 ^ 9)) 0 (swarm_pose two_records) two_records) =
    [("c", stamped (10 * 10 ^ 9) (pose_at 8 8))] /\
  reconfigure (remove_old (steady (7 * 10 ^ 9)) 0 (swarm_pose two_records) two_records) = true.
Proof. split; reflexivity. Qed.

(** C5 at [two_records]. *)
Lemma remove_old_spec_witness :
  wf (swarm_pose two_records) /\
  let s' := remove_old (steady (7 * 10 ^ 9)) 0 (swarm_pose two_records) two_records in
  swarm_pose s' =
    kept (swarm_timeout two_records) (steady (7 * 10 ^ 9)) 0 (swarm_pose two_records) /\
  (forall t, (forall j, steady (7 * 10 ^ 9) j = t) ->
     swarm_pose s' =
       filter (fun cps => negb (timed_out (swarm_timeout two_records) t cps))
         (swarm_pose two_records)) /\
  ((List.length (swarm_pose s') < List.length (swarm_pose two_records))%nat ->
     reconfigure s' = true) /\
  (List.length (swarm_pose s') = List.length (swarm_pose two_records) ->
     reconfigure s' = reconfigure two_records) /\
  registry_frame two_records s'.
Proof.
  split; [exact two_records_wf|].
  exact (remove_old_spec (steady (7 * 10 ^ 9)) 0 two_records two_records_wf).
Defined.

(** The registry of [two_records] listed the other way round. *)
Definition two_records_swapped : State :=
  ready_state "a" (pose_at 2 2)
    [("c", stamped (10 * 10 ^ 9) (pose_at 8 8)); ("b", stamped 0 (pose_at 1 1))].

Lemma two_records_nodup : NoDup (keys (swarm_pose two_records)).
Proof.
  simpl. repeat constructor; simpl; intuition discriminate.
Defined.

Example swarm_grid_example :
  swarm_grid two_records = [("a", [2; 2]); ("b", [1; 1]); ("c", [8; 8])] /\
  swarm_grid two_records_swapped = [("a", [2; 2]); ("b", [1; 1]); ("c", [8; 8])].
Proof. split; reflexivity. Qed.

(** C9 at [two_records] and [two_records_swapped]. *)
Lemma swarm_grid_order_witness :
  Permutation (swarm_pose two_records) (swarm_pose two_records_swapped) /\
  NoDup (keys (swarm_pose two_records)) /\
  StronglySorted string_lt (keys (swarm_grid two_records)) /\
  swarm_grid two_records = swarm_grid two_records_swapped /\
  (division two_records = division two_records_swapped ->
   division (divide_area two_records) = division (divide_area two_records_swapped)).
Proof.
  assert (Hperm : Permutation (swarm_pose two_records) (swarm_pose two_records_swapped))
    by apply perm_swap.
  split; [exact Hperm|]. split; [exact two_records_nodup|].
  exact (swarm_grid_order two_records two_records_swapped Hperm two_records_nodup
           eq_refl eq_refl eq_refl).
Defined.

(** ** Instances of the further properties *)

(** A message that reports "b" twice: the second report counts. *)
Lemma update_positions_last_witness :
  ~ In (node (swarmio (report "b" (pose_at 4 4)))) (ids [report "c" (pose_at 9 9)]) /\
  exists ps,
    find "b"
      (swarm_pose
         (update_positions (fun j => Z.of_nat j) 0
            ([report "b" (pose_at 3 3)] ++
             report "b" (pose_at 4 4) :: [report "c" (pose_at 9 9)])
            two_records)) = Some ps /\
    ps_pose ps = pose_at 4 4 /\
    stamp (ps_header ps) = 1.
Proof.
  assert (H : ~ In (node (swarmio (report "b" (pose_at 4 4))))
                (ids [report "c" (pose_at 9 9)])).
  { simpl. intros [E|[]]. discriminate. }
  split; [exact H|].
  exact (update_positions_last (fun j => Z.of_nat j) 0
           [report "b" (pose_at 3 3)] [report "c" (pose_at 9 9)]
           (report "b" (pose_at 4 4)) two_records H).
Defined.

Lemma steady_reads (t : Z) : forall j, steady t j = t.
Proof. intros j. reflexivity. Defined.

(** At 7 s, with the timeout of 5 s, a report of "b" gives it a record
    stamped 7 s that the pruning of the same callback keeps. *)
Lemma swarm_callback_reported_witness :
  wf (swarm_pose two_records) /\
  (forall j, steady (7 * 10 ^ 9) j = 7 * 10 ^ 9) /\
  In "b" (ids [report "b" (pose_at 3 3)]) /\
  exists ps,
    find "b"
      (swarm_pose
         (swarm_callback [report "b" (pose_at 3 3)] (steady (7 * 10 ^ 9)) two_records))
      = Some ps /\
    stamp (ps_header ps) = 7 * 10 ^ 9.
Proof.
  assert (Hin : In "b" (ids [report "b" (pose_at 3 3)])) by (left; reflexivity).
  split; [exact two_records_wf|]. split; [exact (steady_reads (7 * 10 ^ 9))|].
  split; [exact Hin|].
  exact (swarm_callback_reported [report "b" (pose_at 3 3)] (steady (7 * 10 ^ 9))
           (7 * 10 ^ 9) two_records "b" two_records_wf
           (steady_reads (7 * 10 ^ 9)) Hin).
Defined.

(** The same report with a timeout of -1 s: the record of "b" is gone
    when the callback returns, and so is the record of "c". *)
Example negative_timeout_forgets :
  let s :=
    {| uuid := "a"; pose := pose_at 2 2; pose_valid := true;
       swarm_pose := swarm_pose two_records; swarm_valid := true;
       swarm_timeout := (-1)%float; gridmap := map_10x10; map_valid := true;
       reconfigure := false; visualize := false;
       division := @nil Call; published := [] |} in
  swarm_pose (swarm_callback [report "b" (pose_at 3 3)] (steady (11 * 10 ^ 9)) s) = [] /\
  reconfigure (swarm_callback [report "b" (pose_at 3 3)] (steady (11 * 10 ^ 9)) s) = true.
Proof. cbv zeta. split; reflexivity. Qed.

(** The empty swarm message. *)
Definition no_reports : list Position := [].

(** At 7 s an empty message prunes "b" (stamped 0 s) and keeps "c". *)
Lemma swarm_callback_unreported_witness :
  wf (swarm_pose two_records) /\
  (forall j, steady (7 * 10 ^ 9) j = 7 * 10 ^ 9) /\
  ~ In "b" (ids no_reports) /\
  find "b" (swarm_pose (swarm_callback no_reports (steady (7 * 10 ^ 9)) two_records)) =
    match find "b" (swarm_pose two_records) with
    | Some ps =>
        if timed_out (swarm_timeout two_records) (7 * 10 ^ 9) ("b", ps)
        then None else Some ps
    | None => None
    end.
Proof.
  assert (Hin : ~ In "b" (ids no_reports)) by (intros []).
  split; [exact two_records_wf|]. split; [exact (steady_reads (7 * 10 ^ 9))|].
  split; [exact Hin|].
  exact (swarm_callback_unreported [] (steady (7 * 10 ^ 9)) (7 * 10 ^ 9)
           two_records "b" two_records_wf (steady_reads (7 * 10 ^ 9)) Hin).
Defined.

Example empty_message_prunes :
  keys (swarm_pose (swarm_callback no_reports (steady (7 * 10 ^ 9)) two_records)) = ["c"].
Proof. reflexivity. Qed.

(** The first request of a node that just became ready. *)
Lemma response_from_division_witness :
  snd (main_step Request (main_run no_parameters [startup "a" (pose_at 2 2) [] 0])) =
    Some map_10x10 /\
  exists d,
    division
      (st (fst (main_step Request
                  (main_run no_parameters [startup "a" (pose_at 2 2) [] 0])))) =
      divide d /\
    map_10x10 =
      get_grid (divide d)
        (gridmap (st (main_run no_parameters [startup "a" (pose_at 2 2) [] 0])))
        (uuid (st (main_run no_parameters [startup "a" (pose_at 2 2) [] 0]))).
Proof.
  split; [reflexivity|].
  exact (response_from_division no_parameters [startup "a" (pose_at 2 2) [] 0]
           Request map_10x10 eq_refl).
Defined.

(** A run with a request and no [visualize] parameter. *)
Lemma main_run_unpublished_witness :
  param (visualize_param no_parameters) false = false /\
  published
    (st (main_run no_parameters [startup "a" (pose_at 2 2) [] 0; Request])) = [].
Proof.
  split; [reflexivity|].
  exact (main_run_unpublished no_parameters
           [startup "a" (pose_at 2 2) [] 0; Request] eq_refl).
Defined.

(** With [visualize] set, the request that divides publishes its answer. *)
Example visualize_publishes :
  let server :=
    {| loop_rate_param := None; queue_size_param := None;
       swarm_timeout_param := None; visualize_param := Some true |} in
  published (st (main_run server [startup "a" (pose_at 2 2) [] 0; Request; Request])) =
    [map_10x10].
Proof. reflexivity. Qed.
